(** * Dabblebase client SDK: auth, storage and realtime clients

    A shallow embedding of [src/internal/auth.ts], [src/internal/storage.ts],
    [src/internal/utils.ts], [src/internal/realtime.ts] and [src/index.ts].

    Conventions of the embedding.
    - A JavaScript string is held as the bytes of its UTF-8 text ([string]).
      An unpaired surrogate, which has no UTF-8 form of its own, is held as
      the three bytes the UTF-8 scheme gives its code point ([ED], then [A0]
      to [BF], then [80] to [BF]), so the strings on which
      [encodeURIComponent] raises [URIError] are strings of the embedding
      too.
    - An optional property or argument ([x?: T], [T | undefined]) is an
      [option].
    - A function that can [throw] returns [Thrown + A]; effects on the outside
      world are recorded, in order, in a log of events.
    - External collaborators ([jsonwebtoken], [fetch], the [phoenix] socket
      library, the caller's callbacks) are parameters. *)

From Stdlib Require Import String Ascii List Bool Arith NArith Lia DecimalString.
Import ListNotations.
Open Scope string_scope.

(** ** JavaScript values *)

Module Js.

(** An [Error] object: its [name] and its [message]. *)
Record JsError : Type := mkJsError { name : string; message : string }.

(** What a [throw] carries: an instance of [Error], or any other value. *)
Inductive Thrown : Type :=
| ThrowError (e : JsError)
| ThrowOther (repr : string).

(** [new Error(msg)] *)
Definition Error (msg : string) : JsError := mkJsError "Error" msg.

(** Truthiness of a string: every string but the empty one. *)
Definition truthy (s : string) : bool :=
  match s with
  | EmptyString => false
  | String _ _ => true
  end.

(** Truthiness of [string | undefined]. *)
Definition truthy_opt (o : option string) : bool :=
  match o with
  | Some s => truthy s
  | None => false
  end.

(** [o || d] for [o : string | undefined]. *)
Definition or_default (o : option string) (d : string) : string :=
  match o with
  | Some s => if truthy s then s else d
  | None => d
  end.

(** The line feed of a template literal's [\n]. *)
Definition nl : string := String (ascii_of_nat 10) EmptyString.

(** [`${n}`] for a non-negative integer. *)
Definition string_of_N (n : N) : string := NilZero.string_of_uint (N.to_uint n).

Lemma truthy_true_iff (s : string) : truthy s = true <-> s <> "".
Proof.
  destruct s; simpl; split; intros H; congruence.
Qed.

Lemma truthy_opt_true (o : option string) :
  truthy_opt o = true -> exists s, o = Some s /\ s <> "".
Proof.
  destruct o as [s|]; simpl; intros H; [|discriminate].
  exists s. split; [reflexivity|]. apply truthy_true_iff. exact H.
Qed.

End Js.

(** ** A log of events and exceptions

    [Eff E A] is a computation that appends events of type [E] to a log and
    either returns an [A] or throws. The events logged before a [throw] are
    kept, so a statement can say what had happened when the exception left. *)

Module Eff.
Import Js.

Definition Eff (E A : Type) : Type := (list E * (Thrown + A))%type.

Definition ret {E A} (a : A) : Eff E A := ([], inr a).

Definition throw {E A} (t : Thrown) : Eff E A := ([], inl t).

Definition emit {E} (e : E) : Eff E unit := ([e], inr tt).

Definition bind {E A B} (m : Eff E A) (k : A -> Eff E B) : Eff E B :=
  match m with
  | (l, inl t) => (l, inl t)
  | (l, inr a) => let (l', r) := k a in ((l ++ l')%list, r)
  end.

(** [await p] for a promise that the environment settles: rejected or
    fulfilled. *)
Definition settle {E A} (r : Thrown + A) : Eff E A := ([], r).

(** A call of a function that logs nothing: it returns or it throws. *)
Definition eval {E A} (r : Thrown + A) : Eff E A := ([], r).

Definition events {E A} (m : Eff E A) : list E := fst m.
Definition outcome {E A} (m : Eff E A) : Thrown + A := snd m.

Lemma bind_ret_l {E A B} (a : A) (k : A -> Eff E B) : bind (ret a) k = k a.
Proof. unfold bind, ret. destruct (k a). reflexivity. Qed.

Lemma bind_throw {E A B} (t : Thrown) (k : A -> Eff E B) :
  bind (throw t) k = throw t.
Proof. reflexivity. Qed.

End Eff.

Declare Scope eff_scope.
Delimit Scope eff_scope with eff.
Notation "x <- m ;; k" := (Eff.bind m (fun x => k))
  (at level 61, m at next level, right associativity) : eff_scope.
Notation "m ;;; k" := (Eff.bind m (fun _ => k))
  (at level 61, right associativity) : eff_scope.

(** ** Auth client ([src/internal/auth.ts]) *)

Module Auth.
Import Js Eff.
Local Open Scope eff_scope.

(** What [jwt.verify] does with a token: it returns the decoded payload or it
    throws. *)
Inductive JwtOutcome (Payload : Type) : Type :=
| JwtReturns (payload : Payload)
| JwtThrows (t : Thrown).
Arguments JwtReturns {Payload} payload.
Arguments JwtThrows {Payload} t.

(** The one effect of [verify]: a call of [jwt.verify(token, publicKey,
    {algorithms})]. *)
Inductive AuthEvent : Type :=
| EvJwtVerify (token publicKey : string) (algorithms : list string).

Record AuthClientConfiguration : Type := mkAuthCfg {
  projectId : string;
  projectUrl : string;
  dabblebaseUrl : option string;
  authVerifyKey : option string
}.

Section Verify.

(** The payload of a token. [payload as AuthSubject] is an unchecked cast, so
    the subject of a result is the payload itself. *)
Variable AuthSubject : Type.

(** [jwt.verify] of the [jsonwebtoken] package. *)
Variable jwt_verify : string -> string -> list string -> JwtOutcome AuthSubject.

Record AuthVerificationResult : Type := mkResult {
  subject : option AuthSubject;
  error : option JsError
}.

Definition publicKeyPem (key : string) : string :=
  "-----BEGIN PUBLIC KEY-----" ++ nl ++ key ++ nl ++ "-----END PUBLIC KEY-----".

Definition not_authenticated : JsError := Error "The user is not authenticated.".

Definition no_verify_key : JsError :=
  Error "❌ (dabblebase): Cannot verify the auth token because no auth verification key was provided to dabblebase client.".

Definition verification_failed (e : JsError) : JsError :=
  Error ("❌ (dabblebase): An error occurred while verifying the auth token. "
         ++ name e ++ ": " ++ message e).

Definition verification_unexpected : JsError :=
  Error "❌ (dabblebase): An unexpected error occurred while verifying the auth token.".

Definition verify (cfg : AuthClientConfiguration) (authToken : option string)
  : Eff AuthEvent AuthVerificationResult :=
  match authToken with
  | None => ret (mkResult None (Some not_authenticated))
  | Some token =>
    if negb (truthy token) then ret (mkResult None (Some not_authenticated))
    else
      match authVerifyKey cfg with
      | None => throw (ThrowError no_verify_key)
      | Some key =>
        if negb (truthy key) then throw (ThrowError no_verify_key)
        else
          let publicKey := publicKeyPem key in
          emit (EvJwtVerify token publicKey ["RS256"]) ;;;
          match jwt_verify token publicKey ["RS256"] with
          | JwtReturns payload => ret (mkResult (Some payload) None)
          | JwtThrows (ThrowError e) =>
              ret (mkResult None (Some (verification_failed e)))
          | JwtThrows (ThrowOther _) =>
              ret (mkResult None (Some verification_unexpected))
          end
      end
  end.

(** A result names a subject or an error, and not both. *)
Definition exactly_one (r : AuthVerificationResult) : Prop :=
  (subject r = None /\ error r <> None) \/ (subject r <> None /\ error r = None).

(** *** Properties of [verify] *)

Lemma verify_falsy_token (cfg : AuthClientConfiguration) (authToken : option string) :
  truthy_opt authToken = false ->
  verify cfg authToken = ([], inr (mkResult None (Some not_authenticated))).
Proof.
  destruct authToken as [token|]; simpl; [|reflexivity].
  intros H. rewrite H. reflexivity.
Qed.

Lemma verify_missing_key (cfg : AuthClientConfiguration) (token : string) :
  truthy token = true ->
  truthy_opt (authVerifyKey cfg) = false ->
  verify cfg (Some token) = ([], inl (ThrowError no_verify_key)).
Proof.
  intros Ht Hk. unfold verify. rewrite Ht. simpl.
  destruct (authVerifyKey cfg) as [key|]; simpl in *; [|reflexivity].
  rewrite Hk. reflexivity.
Qed.

Lemma verify_with_key (cfg : AuthClientConfiguration) (token key : string) :
  truthy token = true ->
  authVerifyKey cfg = Some key ->
  truthy key = true ->
  verify cfg (Some token) =
    ([EvJwtVerify token (publicKeyPem key) ["RS256"]],
     inr (match jwt_verify token (publicKeyPem key) ["RS256"] with
          | JwtReturns payload => mkResult (Some payload) None
          | JwtThrows (ThrowError e) => mkResult None (Some (verification_failed e))
          | JwtThrows (ThrowOther _) => mkResult None (Some verification_unexpected)
          end)).
Proof.
  intros Ht Hc Hk. unfold verify. rewrite Ht, Hc, Hk. simpl.
  destruct (jwt_verify token (publicKeyPem key) ["RS256"]) as [payload|[e|v]];
    reflexivity.
Qed.

(** C4. For a defined, non-empty auth token: when a verify key is configured
    and [jwt.verify] throws (the signature is invalid), [verify] makes that one
    call and returns a result with a null subject and a non-null error; when
    no verify key was given at construction (absent or empty), [verify] makes
    no call and throws instead of returning a result. *)
Theorem verify_invalid_signature_returned_missing_key_raised
  (cfg : AuthClientConfiguration) (token : string) :
  token <> "" ->
  (forall key t,
      authVerifyKey cfg = Some key -> key <> "" ->
      jwt_verify token (publicKeyPem key) ["RS256"] = JwtThrows t ->
      exists e,
        verify cfg (Some token) =
          ([EvJwtVerify token (publicKeyPem key) ["RS256"]],
           inr (mkResult None (Some e))))
  /\ (truthy_opt (authVerifyKey cfg) = false ->
      verify cfg (Some token) = ([], inl (ThrowError no_verify_key))).
Proof.
  intros Htok. apply truthy_true_iff in Htok. split.
  - intros key t Hc Hk Hj. apply truthy_true_iff in Hk.
    rewrite (verify_with_key cfg token key Htok Hc Hk), Hj.
    destruct t as [e|v]; eexists; reflexivity.
  - intros Hk. apply verify_missing_key; assumption.
Qed.

(** C8. [verify(undefined)] returns a result with a null subject and a
    non-null error, and [jwt.verify] is not called: the log of calls is empty.
    This holds for every configuration, so also when no verify key is
    configured, and whatever [jwt.verify] would have answered. *)
Theorem verify_undefined_returns_error_without_check
  (cfg : AuthClientConfiguration) :
  verify cfg None = ([], inr (mkResult None (Some not_authenticated)))
  /\ events (verify cfg None) = []
  /\ exists e, outcome (verify cfg None) = inr (mkResult None (Some e)).
Proof.
  split; [reflexivity|]. split; [reflexivity|].
  exists not_authenticated. reflexivity.
Qed.

(** C10. Whenever [verify] returns a result (it does not throw), for every
    token, [undefined] included, exactly one of [subject] and [error] is
    non-null. *)
Theorem verify_result_exactly_one
  (cfg : AuthClientConfiguration) (authToken : option string)
  (r : AuthVerificationResult) :
  outcome (verify cfg authToken) = inr r -> exactly_one r.
Proof.
  destruct (truthy_opt authToken) eqn:Ht.
  - destruct authToken as [token|]; [simpl in Ht|discriminate].
    destruct (truthy_opt (authVerifyKey cfg)) eqn:Hk.
    + destruct (truthy_opt_true _ Hk) as [key [Hc Hne]].
      apply truthy_true_iff in Hne.
      rewrite (verify_with_key cfg token key Ht Hc Hne). unfold outcome. simpl.
      intros H. injection H as <-.
      destruct (jwt_verify token (publicKeyPem key) ["RS256"]) as [payload|[e|v]];
        [right|left|left]; simpl; split; congruence.
    + rewrite (verify_missing_key cfg token Ht Hk). unfold outcome. simpl.
      discriminate.
  - rewrite (verify_falsy_token cfg authToken Ht). unfold outcome. simpl.
    intros H. injection H as <-. left. simpl. split; congruence.
Qed.

End Verify.

Arguments subject {AuthSubject} _.
Arguments error {AuthSubject} _.
Arguments mkResult {AuthSubject} _ _.
Arguments exactly_one {AuthSubject} _.

(** A [jwt.verify] that rejects every token, as for a bad signature. *)
Definition jwt_rejects (token publicKey : string) (algorithms : list string)
  : JwtOutcome nat :=
  JwtThrows (ThrowError (mkJsError "JsonWebTokenError" "invalid signature")).

(** A [jwt.verify] that accepts every token and decodes subject 7. *)
Definition jwt_accepts (token publicKey : string) (algorithms : list string)
  : JwtOutcome nat :=
  JwtReturns 7.

Definition cfg_with_key : AuthClientConfiguration :=
  mkAuthCfg "proj" "https://app.example" (Some "www.dabblebase.dev") (Some "MIIB").

Definition cfg_without_key : AuthClientConfiguration :=
  mkAuthCfg "proj" "https://app.example" (Some "www.dabblebase.dev") None.

Lemma verify_invalid_signature_witness :
  (exists e,
     verify nat jwt_rejects cfg_with_key (Some "a.b.c") =
       ([EvJwtVerify "a.b.c" (publicKeyPem "MIIB") ["RS256"]],
        inr (mkResult None (Some e))))
  /\ verify nat jwt_rejects cfg_without_key (Some "a.b.c")
     = ([], inl (ThrowError no_verify_key)).
Proof.
  split.
  - destruct (verify_invalid_signature_returned_missing_key_raised
                nat jwt_rejects cfg_with_key "a.b.c") as [H _].
    + discriminate.
    + apply (H "MIIB" (ThrowError (mkJsError "JsonWebTokenError" "invalid signature"))).
      * reflexivity.
      * discriminate.
      * reflexivity.
  - destruct (verify_invalid_signature_returned_missing_key_raised
                nat jwt_rejects cfg_without_key "a.b.c") as [_ H].
    + discriminate.
    + apply H. reflexivity.
Defined.

Lemma verify_result_exactly_one_witness :
  exactly_one (mkResult (Some 7) None)
  /\ exactly_one (mkResult (@None nat) (Some (verification_failed
                    (mkJsError "JsonWebTokenError" "invalid signature")))).
Proof.
  split.
  - apply (verify_result_exactly_one nat jwt_accepts cfg_with_key (Some "a.b.c")).
    reflexivity.
  - apply (verify_result_exactly_one nat jwt_rejects cfg_with_key (Some "a.b.c")).
    reflexivity.
Defined.

(** *** Further properties of [verify] *)

Section VerifyOutcomes.

Variable AuthSubject : Type.
Variable jwt_verify : string -> string -> list string -> JwtOutcome AuthSubject.

(** X1. [verify] throws in one case only, a non-empty token with no verify key
    configured, and then it throws the missing-key error: whatever the token
    holds and whatever [jwt.verify] does, nothing else escapes. *)
Theorem verify_throws_iff
  (cfg : AuthClientConfiguration) (authToken : option string) (t : Thrown) :
  outcome (verify AuthSubject jwt_verify cfg authToken) = inl t
  <-> truthy_opt authToken = true
      /\ truthy_opt (authVerifyKey cfg) = false
      /\ t = ThrowError no_verify_key.
Proof.
  split.
  - destruct (truthy_opt authToken) eqn:Ht.
    + destruct authToken as [token|]; [simpl in Ht|discriminate].
      destruct (truthy_opt (authVerifyKey cfg)) eqn:Hk.
      * destruct (truthy_opt_true _ Hk) as [key [Hc Hne]].
        apply truthy_true_iff in Hne.
        rewrite (verify_with_key AuthSubject jwt_verify cfg token key Ht Hc Hne).
        discriminate.
      * rewrite (verify_missing_key AuthSubject jwt_verify cfg token Ht Hk).
        unfold outcome. simpl. intros H. injection H as <-.
        repeat split; reflexivity.
    + rewrite (verify_falsy_token AuthSubject jwt_verify cfg authToken Ht).
      discriminate.
  - intros (Ht & Hk & ->).
    destruct authToken as [token|]; [simpl in Ht|discriminate].
    rewrite (verify_missing_key AuthSubject jwt_verify cfg token Ht Hk).
    reflexivity.
Qed.

(** X2. [verify] names a subject exactly when the token and the verify key are
    non-empty and [jwt.verify] returns that subject as the payload for this
    token, the PEM of the configured key and the one algorithm [RS256]. *)
Theorem verify_subject_iff
  (cfg : AuthClientConfiguration) (authToken : option string)
  (payload : AuthSubject) :
  (exists r, outcome (verify AuthSubject jwt_verify cfg authToken) = inr r
             /\ subject r = Some payload)
  <-> exists token key,
        authToken = Some token /\ token <> ""
        /\ authVerifyKey cfg = Some key /\ key <> ""
        /\ jwt_verify token (publicKeyPem key) ["RS256"] = JwtReturns payload.
Proof.
  split.
  - intros (r & Hr & Hs).
    destruct (truthy_opt authToken) eqn:Ht.
    + destruct authToken as [token|]; [simpl in Ht|discriminate].
      destruct (truthy_opt (authVerifyKey cfg)) eqn:Hk.
      * destruct (truthy_opt_true _ Hk) as [key [Hc Hne]].
        pose proof Hne as Hkey. apply truthy_true_iff in Hne.
        rewrite (verify_with_key AuthSubject jwt_verify cfg token key Ht Hc Hne) in Hr.
        unfold outcome in Hr. simpl in Hr. injection Hr as <-.
        exists token, key. apply truthy_true_iff in Ht.
        destruct (jwt_verify token (publicKeyPem key) ["RS256"]) as [p|[e|v]];
          simpl in Hs; try discriminate.
        injection Hs as ->. repeat split; assumption.
      * rewrite (verify_missing_key AuthSubject jwt_verify cfg token Ht Hk) in Hr.
        discriminate.
    + rewrite (verify_falsy_token AuthSubject jwt_verify cfg authToken Ht) in Hr.
      unfold outcome in Hr. simpl in Hr. injection Hr as <-. discriminate.
  - intros (token & key & -> & Ht & Hc & Hk & Hj).
    apply truthy_true_iff in Ht. apply truthy_true_iff in Hk.
    rewrite (verify_with_key AuthSubject jwt_verify cfg token key Ht Hc Hk), Hj.
    eexists. split; reflexivity.
Qed.

(** X3. [verify] calls [jwt.verify] at most once, and only with the token it was
    given, the PEM of the configured key and the algorithm list [RS256]
    alone. *)
Theorem verify_calls_jwt_at_most_once
  (cfg : AuthClientConfiguration) (authToken : option string) :
  events (verify AuthSubject jwt_verify cfg authToken) = []
  \/ exists token key,
       authToken = Some token /\ authVerifyKey cfg = Some key
       /\ events (verify AuthSubject jwt_verify cfg authToken)
          = [EvJwtVerify token (publicKeyPem key) ["RS256"]].
Proof.
  destruct (truthy_opt authToken) eqn:Ht.
  - destruct authToken as [token|]; [simpl in Ht|discriminate].
    destruct (truthy_opt (authVerifyKey cfg)) eqn:Hk.
    + destruct (truthy_opt_true _ Hk) as [key [Hc Hne]].
      apply truthy_true_iff in Hne. right. exists token, key.
      rewrite (verify_with_key AuthSubject jwt_verify cfg token key Ht Hc Hne).
      split; [reflexivity|]. split; [exact Hc|reflexivity].
    + left. rewrite (verify_missing_key AuthSubject jwt_verify cfg token Ht Hk).
      reflexivity.
  - left. rewrite (verify_falsy_token AuthSubject jwt_verify cfg authToken Ht).
    reflexivity.
Qed.

End VerifyOutcomes.

(** *** [signIn] and [signOut] *)

Inductive AuthProvider : Type := unc.

Definition provider_text (p : AuthProvider) : string :=
  match p with
  | unc => "unc"
  end.

(** The browser as the two functions see it: an assignment to
    [window.location.href]. *)
Inductive BrowserEvent : Type :=
| EvNavigate (href : string).

(** [`${x}`] for [x : string | undefined]. *)
Definition template_text (x : option string) : string :=
  match x with
  | Some s => s
  | None => "undefined"
  end.

(** A default parameter: it applies when the argument is [undefined]. *)
Definition with_default {A} (x : option A) (d : A) : A :=
  match x with
  | Some a => a
  | None => d
  end.

Definition client_side_only : JsError :=
  Error "❌ (dabblebase): This method must be called from the client-side only (where `window` is defined).".

(** [window] says whether [typeof window] is not ["undefined"]. *)
Definition signIn (cfg : AuthClientConfiguration) (window : bool)
  (provider : option AuthProvider) (continueTo : option string)
  : Eff BrowserEvent unit :=
  let provider := with_default provider unc in
  let continueTo := with_default continueTo "/" in
  if negb window then throw (ThrowError client_side_only)
  else
    emit (EvNavigate
            (template_text (dabblebaseUrl cfg) ++ "/api/project/" ++ projectId cfg
               ++ "/auth/" ++ provider_text provider ++ "?continue_to="
               ++ projectUrl cfg ++ "/" ++ continueTo)).

Definition signOut (cfg : AuthClientConfiguration) (window : bool)
  (continueTo : option string) : Eff BrowserEvent unit :=
  let continueTo := with_default continueTo "/" in
  if negb window then throw (ThrowError client_side_only)
  else
    emit (EvNavigate
            (template_text (dabblebaseUrl cfg) ++ "/api/project/" ++ projectId cfg
               ++ "/auth/logout?continue_to="
               ++ projectUrl cfg ++ "/" ++ continueTo)).

(** Where [signIn] and [signOut] send the user back: the project URL, a
    [/], and the route, the default route being [/]. *)
Definition continue_target (cfg : AuthClientConfiguration)
  (continueTo : option string) : string :=
  projectUrl cfg ++ "/" ++ with_default continueTo "/".

(** X4. Outside the browser [signIn] and [signOut] throw and navigate nowhere.
    In the browser each navigates once, to the sign-in route of the provider
    or to the logout route of the project, with the same [continue_to]
    target; with no [continueTo] given the target is the project URL
    followed by two slashes. *)
Theorem sign_in_out_navigate_in_browser_only
  (cfg : AuthClientConfiguration) (provider : option AuthProvider)
  (continueTo : option string) :
  signIn cfg false provider continueTo = ([], inl (ThrowError client_side_only))
  /\ signOut cfg false continueTo = ([], inl (ThrowError client_side_only))
  /\ signIn cfg true provider continueTo
     = ([EvNavigate
           (template_text (dabblebaseUrl cfg) ++ "/api/project/" ++ projectId cfg
              ++ "/auth/unc?continue_to=" ++ continue_target cfg continueTo)],
        inr tt)
  /\ signOut cfg true continueTo
     = ([EvNavigate
           (template_text (dabblebaseUrl cfg) ++ "/api/project/" ++ projectId cfg
              ++ "/auth/logout?continue_to=" ++ continue_target cfg continueTo)],
        inr tt)
  /\ continue_target cfg None = projectUrl cfg ++ "//".
Proof.
  repeat split.
  unfold signIn. destruct provider as [[]|]; reflexivity.
Qed.

End Auth.

(** ** Storage client ([src/internal/storage.ts]) *)

Module Storage.
Import Js Eff.
Local Open Scope eff_scope.

(** *** [encodeURIComponent], [split] and [join] *)

(** The characters [encodeURIComponent] leaves as they are: letters, digits
    and [- _ . ! ~ * ' ( )]. *)
Definition is_unreserved (c : ascii) : bool :=
  let n := N_of_ascii c in
  ((65 <=? n) && (n <=? 90) || (97 <=? n) && (n <=? 122)
   || (48 <=? n) && (n <=? 57))%N
  || existsb (Ascii.eqb c) (list_ascii_of_string "-_.!~*'()").

Definition hex_digit (n : N) : ascii :=
  match String.get (N.to_nat n) "0123456789ABCDEF" with
  | Some d => d
  | None => "0"%char
  end.

(** [%XX] for one byte of the UTF-8 text. *)
Definition percent_encode (c : ascii) : string :=
  let n := N_of_ascii c in
  String "%" (String (hex_digit (n / 16)) (String (hex_digit (n mod 16)) "")).

(** [new URIError("URI malformed")] *)
Definition uri_malformed : JsError := mkJsError "URIError" "URI malformed".

(** [c] and what follows it begin a surrogate code point ([U+D800] to
    [U+DFFF]): the byte [ED], then a byte from [A0] to [BF]. A surrogate pair
    of the JavaScript string is one code point above [U+FFFF] and has four
    bytes, so a surrogate found in the bytes is an unpaired one. *)
Definition starts_surrogate (c : ascii) (rest : string) : bool :=
  (N_of_ascii c =? 237)%N
  && match rest with
     | String d _ => ((160 <=? N_of_ascii d) && (N_of_ascii d <=? 191))%N
     | EmptyString => false
     end.

(** [encodeURIComponent(s)]: from left to right, an unreserved character is
    kept, an unpaired surrogate throws [URIError], and every byte of the
    UTF-8 form of any other character becomes [%XX]. *)
Fixpoint encodeURIComponent (s : string) : Thrown + string :=
  match s with
  | EmptyString => inr EmptyString
  | String c rest =>
      if is_unreserved c then
        match encodeURIComponent rest with
        | inr encoded => inr (String c encoded)
        | inl t => inl t
        end
      else if starts_surrogate c rest then inl (ThrowError uri_malformed)
      else
        match encodeURIComponent rest with
        | inr encoded => inr (percent_encode c ++ encoded)
        | inl t => inl t
        end
  end.

(** [xs.map(f)] for an [f] that can throw: the first [throw] ends the
    [map]. *)
Fixpoint map_throwing {A B} (f : A -> Thrown + B) (xs : list A)
  : Thrown + list B :=
  match xs with
  | [] => inr []
  | x :: rest =>
      match f x with
      | inl t => inl t
      | inr y =>
          match map_throwing f rest with
          | inl t => inl t
          | inr ys => inr (y :: ys)
          end
      end
  end.

(** [s] has an unpaired surrogate. *)
Fixpoint has_unpaired_surrogate (s : string) : bool :=
  match s with
  | EmptyString => false
  | String c rest => starts_surrogate c rest || has_unpaired_surrogate rest
  end.

(** [s.split(sep)] for a separator of one character: never the empty list. *)
Fixpoint split (sep : ascii) (s : string) : list string :=
  match s with
  | EmptyString => [EmptyString]
  | String c rest =>
      if Ascii.eqb c sep then EmptyString :: split sep rest
      else
        match split sep rest with
        | seg :: segs => String c seg :: segs
        | [] => [String c EmptyString]
        end
  end.

(** [segs.join(sep)] *)
Definition join (sep : string) (segs : list string) : string :=
  String.concat sep segs.

(** [s] has an occurrence of the character [c]. *)
Fixpoint contains (c : ascii) (s : string) : bool :=
  match s with
  | EmptyString => false
  | String d rest => Ascii.eqb d c || contains c rest
  end.

Definition slash : ascii := "/"%char.

(** The number of occurrences of [c] in [s]. *)
Fixpoint count (c : ascii) (s : string) : nat :=
  match s with
  | EmptyString => 0
  | String d rest => (if Ascii.eqb d c then 1 else 0) + count c rest
  end.

(** **** Splitting and joining *)

Lemma split_not_nil (sep : ascii) (s : string) : split sep s <> [].
Proof.
  induction s as [|c rest IH]; simpl; [discriminate|].
  destruct (Ascii.eqb c sep); [discriminate|].
  destruct (split sep rest); discriminate.
Qed.

Lemma split_without_sep (sep : ascii) (s : string) :
  contains sep s = false -> split sep s = [s].
Proof.
  induction s as [|c rest IH]; simpl; [reflexivity|].
  intros H. apply orb_false_iff in H as [Hc Hrest].
  rewrite Hc, (IH Hrest). reflexivity.
Qed.

Lemma split_app_sep (sep : ascii) (s t : string) :
  contains sep s = false ->
  split sep (s ++ String sep t) = s :: split sep t.
Proof.
  induction s as [|c rest IH]; simpl.
  - intros _. rewrite Ascii.eqb_refl. reflexivity.
  - intros H. apply orb_false_iff in H as [Hc Hrest].
    rewrite Hc, (IH Hrest). reflexivity.
Qed.

Lemma split_join (sep : ascii) (segs : list string) :
  segs <> [] ->
  Forall (fun seg => contains sep seg = false) segs ->
  split sep (join (String sep EmptyString) segs) = segs.
Proof.
  induction segs as [|seg rest IH]; [congruence|].
  intros _ Hall. inversion Hall as [|? ? Hseg Hrest]; subst.
  destruct rest as [|seg' rest'].
  - simpl. apply split_without_sep. exact Hseg.
  - change (join (String sep EmptyString) (seg :: seg' :: rest'))
      with (seg ++ String sep (join (String sep EmptyString) (seg' :: rest'))).
    rewrite (split_app_sep sep _ _ Hseg). f_equal.
    apply IH; [discriminate|exact Hrest].
Qed.

Lemma join_split (sep : ascii) (s : string) :
  join (String sep EmptyString) (split sep s) = s.
Proof.
  induction s as [|c rest IH]; simpl; [reflexivity|].
  destruct (Ascii.eqb_spec c sep) as [->|Hne].
  - pose proof (split_not_nil sep rest) as Hnil.
    destruct (split sep rest) as [|seg segs]; [congruence|].
    change (join (String sep EmptyString) (EmptyString :: seg :: segs))
      with (String sep (join (String sep EmptyString) (seg :: segs))).
    rewrite IH. reflexivity.
  - pose proof (split_not_nil sep rest) as Hnil.
    destruct (split sep rest) as [|seg segs]; [congruence|].
    destruct segs as [|seg' segs'].
    + simpl in *. rewrite IH. reflexivity.
    + change (join (String sep EmptyString) (String c seg :: seg' :: segs'))
        with (String c (join (String sep EmptyString) (seg :: seg' :: segs'))).
      rewrite IH. reflexivity.
Qed.

Lemma split_length (sep : ascii) (s : string) :
  length (split sep s) = S (count sep s).
Proof.
  induction s as [|c rest IH]; simpl; [reflexivity|].
  destruct (Ascii.eqb c sep); simpl.
  - rewrite IH. reflexivity.
  - pose proof (split_not_nil sep rest) as Hnil.
    destruct (split sep rest) as [|seg segs]; [congruence|].
    simpl in *. exact IH.
Qed.

(** **** What [encodeURIComponent] produces *)

Lemma contains_app (c : ascii) (s t : string) :
  contains c (s ++ t) = contains c s || contains c t.
Proof.
  induction s as [|d rest IH]; simpl; [reflexivity|].
  rewrite IH. apply orb_assoc.
Qed.

Lemma hex_digit_not_slash (n : N) : Ascii.eqb (hex_digit n) slash = false.
Proof.
  unfold hex_digit. generalize (N.to_nat n) as k. intros k.
  do 16 (destruct k as [|k]; [reflexivity|]). reflexivity.
Qed.

Lemma unreserved_not_slash (c : ascii) :
  is_unreserved c = true -> Ascii.eqb c slash = false.
Proof.
  intros H. destruct (Ascii.eqb_spec c slash) as [->|Hne]; [|reflexivity].
  discriminate H.
Qed.

Lemma percent_encode_no_slash (c : ascii) :
  contains slash (percent_encode c) = false.
Proof.
  unfold percent_encode. simpl.
  rewrite !hex_digit_not_slash. reflexivity.
Qed.

(** The equations of [encodeURIComponent] on a string that it encodes. *)
Lemma encodeURIComponent_cons_inv (c : ascii) (rest encoded : string) :
  encodeURIComponent (String c rest) = inr encoded ->
  exists encoded',
    encodeURIComponent rest = inr encoded'
    /\ ((is_unreserved c = true /\ encoded = String c encoded')
        \/ (is_unreserved c = false /\ starts_surrogate c rest = false
            /\ encoded = percent_encode c ++ encoded')).
Proof.
  cbn [encodeURIComponent]. destruct (is_unreserved c) eqn:Hc.
  - destruct (encodeURIComponent rest) as [t|e']; [discriminate|].
    intros Heq. injection Heq as <-. exists e'. split; [reflexivity|].
    left. split; reflexivity.
  - destruct (starts_surrogate c rest) eqn:Hs; [discriminate|].
    destruct (encodeURIComponent rest) as [t|e']; [discriminate|].
    intros Heq. injection Heq as <-. exists e'. split; [reflexivity|].
    right. repeat split; reflexivity.
Qed.

(** An encoded component has no [/] left: a [/] of the input is [%2F]. *)
Lemma encodeURIComponent_no_slash (s encoded : string) :
  encodeURIComponent s = inr encoded -> contains slash encoded = false.
Proof.
  revert encoded. induction s as [|c rest IH]; intros encoded Henc.
  - injection Henc as <-. reflexivity.
  - apply encodeURIComponent_cons_inv in Henc
      as (e' & Hrest & [[Hc ->]|(Hc & _ & ->)]).
    + cbn [contains]. rewrite (unreserved_not_slash c Hc), (IH e' Hrest).
      reflexivity.
    + rewrite contains_app, percent_encode_no_slash, (IH e' Hrest). reflexivity.
Qed.

(** **** When [encodeURIComponent] throws *)

Lemma unreserved_not_surrogate (c : ascii) (rest : string) :
  is_unreserved c = true -> starts_surrogate c rest = false.
Proof.
  intros Hc. unfold starts_surrogate.
  destruct (N.eqb_spec (N_of_ascii c) 237) as [Heq|Hne]; [|reflexivity].
  apply (f_equal ascii_of_N) in Heq. rewrite ascii_N_embedding in Heq.
  subst c. discriminate Hc.
Qed.

(** The only exception of [encodeURIComponent] is the [URIError], thrown
    exactly for a string with an unpaired surrogate. *)
Lemma encodeURIComponent_throws (s : string) :
  has_unpaired_surrogate s = true ->
  encodeURIComponent s = inl (ThrowError uri_malformed).
Proof.
  induction s as [|c rest IH]; [discriminate|].
  cbn [has_unpaired_surrogate encodeURIComponent]. intros Hs.
  destruct (is_unreserved c) eqn:Hc.
  - rewrite (unreserved_not_surrogate c rest Hc) in Hs. cbn [orb] in Hs.
    rewrite (IH Hs). reflexivity.
  - destruct (starts_surrogate c rest); [reflexivity|].
    cbn [orb] in Hs. rewrite (IH Hs). reflexivity.
Qed.

Lemma encodeURIComponent_returns (s : string) :
  has_unpaired_surrogate s = false ->
  exists encoded, encodeURIComponent s = inr encoded.
Proof.
  induction s as [|c rest IH]; [intros _; exists ""; reflexivity|].
  cbn [has_unpaired_surrogate encodeURIComponent]. intros Hs.
  apply orb_false_iff in Hs as [Hc Hrest].
  destruct (IH Hrest) as [e' He']. rewrite He', Hc.
  destruct (is_unreserved c); eexists; reflexivity.
Qed.

Lemma encodeURIComponent_returned (s encoded : string) :
  encodeURIComponent s = inr encoded -> has_unpaired_surrogate s = false.
Proof.
  intros Henc. destruct (has_unpaired_surrogate s) eqn:Hs; [|reflexivity].
  rewrite (encodeURIComponent_throws s Hs) in Henc. discriminate Henc.
Qed.

(** **** Percent-encoding, as RFC 3986 and ECMA-262 word it

    [percent_encoded s out]: [out] is [s] with every character of the
    unreserved set of [encodeURIComponent] kept and every other byte written
    as [%], then the two upper-case hexadecimal digits of its value. *)

(** The unreserved set, one character after the other: the letters, the
    decimal digits and the marks. *)
Definition unreserved_set : string :=
  "ABCDEFGHIJKLMNOPQRSTUVWXYZabcdefghijklmnopqrstuvwxyz0123456789-_.!~*'()".

Definition in_unreserved_set (c : ascii) : bool := contains c unreserved_set.

Definition upper_hex_value (c : ascii) : option N :=
  let n := N_of_ascii c in
  if ((48 <=? n) && (n <=? 57))%N then Some (n - 48)%N
  else if ((65 <=? n) && (n <=? 70))%N then Some (n - 55)%N
  else None.

Definition is_escape_of (c h l : ascii) : bool :=
  match upper_hex_value h, upper_hex_value l with
  | Some hi, Some lo => (16 * hi + lo =? N_of_ascii c)%N
  | _, _ => false
  end.

Fixpoint percent_encoded (s out : string) : bool :=
  match s with
  | EmptyString =>
      match out with
      | EmptyString => true
      | String _ _ => false
      end
  | String c rest =>
      if in_unreserved_set c then
        match out with
        | String c' out' => Ascii.eqb c' c && percent_encoded rest out'
        | EmptyString => false
        end
      else
        match out with
        | String p (String h (String l out')) =>
            Ascii.eqb p "%" && is_escape_of c h l && percent_encoded rest out'
        | _ => false
        end
  end.

Lemma is_unreserved_in_set (c : ascii) :
  is_unreserved c = in_unreserved_set c.
Proof. destruct c as [[] [] [] [] [] [] [] []]; vm_compute; reflexivity. Qed.

Lemma percent_encode_is_escape (c : ascii) :
  is_escape_of c (hex_digit (N_of_ascii c / 16)) (hex_digit (N_of_ascii c mod 16))
  = true.
Proof. destruct c as [[] [] [] [] [] [] [] []]; vm_compute; reflexivity. Qed.

Lemma encodeURIComponent_percent_encoded (s encoded : string) :
  encodeURIComponent s = inr encoded -> percent_encoded s encoded = true.
Proof.
  revert encoded. induction s as [|c rest IH]; intros encoded Henc.
  - injection Henc as <-. reflexivity.
  - apply encodeURIComponent_cons_inv in Henc
      as (e' & Hrest & [[Hc ->]|(Hc & _ & ->)]); cbn [percent_encoded];
      rewrite <- is_unreserved_in_set, Hc.
    + rewrite Ascii.eqb_refl, (IH e' Hrest). reflexivity.
    + unfold percent_encode. cbn [append].
      rewrite Ascii.eqb_refl, percent_encode_is_escape, (IH e' Hrest).
      reflexivity.
Qed.

(** **** Mapping over the segments of a path *)

Lemma map_throwing_returned {A B} (f : A -> Thrown + B) (xs : list A)
  (ys : list B) :
  map_throwing f xs = inr ys -> Forall2 (fun x y => f x = inr y) xs ys.
Proof.
  revert ys. induction xs as [|x rest IH]; intros ys Hmap.
  - injection Hmap as <-. constructor.
  - cbn [map_throwing] in Hmap. destruct (f x) as [t|y] eqn:Hx; [discriminate|].
    destruct (map_throwing f rest) as [t|ys']; [discriminate|].
    injection Hmap as <-. constructor; [exact Hx|]. apply IH. reflexivity.
Qed.

Lemma map_throwing_returns {A B} (f : A -> Thrown + B) (xs : list A) :
  Forall (fun x => exists y, f x = inr y) xs ->
  exists ys, map_throwing f xs = inr ys.
Proof.
  induction 1 as [|x rest [y Hx] _ [ys Hys]].
  - exists []. reflexivity.
  - exists (y :: ys). cbn [map_throwing]. rewrite Hx, Hys. reflexivity.
Qed.

Lemma map_throwing_throws {A B} (f : A -> Thrown + B) (xs : list A) (t : Thrown) :
  Forall (fun x => (exists y, f x = inr y) \/ f x = inl t) xs ->
  Exists (fun x => f x = inl t) xs ->
  map_throwing f xs = inl t.
Proof.
  induction 1 as [|x rest Hx Hrest IH]; intros Hex.
  - inversion Hex.
  - cbn [map_throwing]. destruct Hx as [[y Hy]|Ht]; [|rewrite Ht; reflexivity].
    rewrite Hy. inversion Hex as [? ? Hhere|? ? Hlater]; subst.
    + congruence.
    + rewrite (IH Hlater). reflexivity.
Qed.

Lemma starts_surrogate_first_segment (c : ascii) (rest : string) :
  starts_surrogate c (hd "" (split slash rest)) = starts_surrogate c rest.
Proof.
  destruct rest as [|d r]; [reflexivity|]. cbn [split].
  destruct (Ascii.eqb_spec d slash) as [->|Hne].
  - unfold starts_surrogate. cbn. rewrite andb_false_r. reflexivity.
  - pose proof (split_not_nil slash r) as Hnil.
    destruct (split slash r) as [|seg segs]; [congruence|]. reflexivity.
Qed.

(** A surrogate never holds a [/], so a path has an unpaired surrogate
    exactly when one of its segments has one. *)
Lemma split_has_unpaired_surrogate (s : string) :
  existsb has_unpaired_surrogate (split slash s) = has_unpaired_surrogate s.
Proof.
  induction s as [|c rest IH]; [reflexivity|].
  cbn [split has_unpaired_surrogate].
  destruct (Ascii.eqb_spec c slash) as [->|Hne].
  - cbn [existsb has_unpaired_surrogate]. rewrite IH. reflexivity.
  - rewrite <- (starts_surrogate_first_segment c rest), <- IH.
    pose proof (split_not_nil slash rest) as Hnil.
    destruct (split slash rest) as [|seg segs]; [congruence|].
    cbn [existsb has_unpaired_surrogate hd]. symmetry. apply orb_assoc.
Qed.

(** *** Requests and responses *)

Record StorageClientConfiguration : Type := mkStorageCfg {
  projectId : string;
  dabblebaseUrl : string;
  projectToken : option string
}.

(** A [File]: its name and its content. *)
Record File : Type := mkFile { fileName : string; fileContent : string }.

Inductive Method : Type := POST | GET | DELETE.

(** [new FormData()] after its [append] calls: the fields in order. *)
Definition FormData : Type := list (string * File).

Record Request : Type := mkRequest {
  url : string;
  method : Method;
  headers : list (string * string);
  body : option FormData
}.

(** A response of [fetch], received in full: [text()] fulfils with
    [bodyText]. *)
Record Response : Type := mkResponse {
  ok : bool;
  status : N;
  statusText : string;
  bodyText : string
}.

Inductive StorageEvent : Type :=
| EvFormDataNew
| EvFormDataAppend (field : string) (file : File)
| EvFetch (req : Request)
| EvResponseText
| EvResponseJson.

(** The result of [upload]. *)
Record UploadResult : Type := mkUploadResult { uploadedUrl : string }.

Definition getAuthHeaders (cfg : StorageClientConfiguration)
  : list (string * string) :=
  ("Content-Type", "application/json")
  :: match projectToken cfg with
     | Some t => if truthy t then [("X-Project-Token", t)] else []
     | None => []
     end.

Definition file_required : JsError :=
  Error "❌ (dabblebase): A file must be provided for upload.".

Definition upload_path_required : JsError :=
  Error "❌ (dabblebase): A destination path must be provided for upload.".

Definition view_path_required : JsError :=
  Error "❌ (dabblebase): A path must be provided for view URL.".

Definition delete_path_required : JsError :=
  Error "❌ (dabblebase): A destination path must be provided for deletion.".

Definition upload_failed (r : Response) : JsError :=
  Error ("❌ (dabblebase): Direct upload failed (" ++ string_of_N (status r)
         ++ " " ++ statusText r ++ "). " ++ bodyText r).

Definition list_failed (r : Response) : JsError :=
  Error ("❌ (dabblebase): Failed to list files (" ++ string_of_N (status r)
         ++ " " ++ statusText r ++ "). " ++ bodyText r).

Definition delete_failed (r : Response) : JsError :=
  Error ("❌ (dabblebase): Failed to delete the file (" ++ string_of_N (status r)
         ++ " " ++ statusText r ++ ").").

Definition upload_request (cfg : StorageClientConfiguration) (file : File)
  (encodedPath : string) : Request :=
  mkRequest
    (dabblebaseUrl cfg ++ "/api/project/" ++ projectId cfg
       ++ "/storage/upload?path=" ++ encodedPath)
    POST
    [("X-Project-Token", or_default (projectToken cfg) "")]
    (Some [("file", file)]).

Definition list_request (cfg : StorageClientConfiguration) : Request :=
  mkRequest
    (dabblebaseUrl cfg ++ "/api/project/" ++ projectId cfg ++ "/storage/list")
    GET (getAuthHeaders cfg) None.

Definition delete_request (cfg : StorageClientConfiguration)
  (encodedPath : string) : Request :=
  mkRequest
    (dabblebaseUrl cfg ++ "/api/project/" ++ projectId cfg
       ++ "/storage/delete?path=" ++ encodedPath)
    DELETE (getAuthHeaders cfg) None.

(** The path of a view URL: every segment encoded on its own. *)
Definition encodedViewPath (path : string) : Thrown + string :=
  match map_throwing encodeURIComponent (split slash path) with
  | inr segments => inr (join "/" segments)
  | inl t => inl t
  end.

Definition getUrl (cfg : StorageClientConfiguration) (path : string)
  : Eff StorageEvent string :=
  if negb (truthy path) then throw (ThrowError view_path_required)
  else
    encodedPath <- eval (encodedViewPath path) ;;
    token <- eval (encodeURIComponent (or_default (projectToken cfg) "")) ;;
    ret (dabblebaseUrl cfg ++ "/api/project/" ++ projectId cfg
           ++ "/storage/view/" ++ encodedPath ++ "?X-Project-Token=" ++ token).

(** *** Properties of [getUrl] *)

(** What [getUrl] gives for a path that passes its check. *)
Lemma getUrl_run (cfg : StorageClientConfiguration) (path : string) :
  path <> "" ->
  getUrl cfg path
  = ([], match encodedViewPath path with
         | inl t => inl t
         | inr encodedPath =>
             match encodeURIComponent (or_default (projectToken cfg) "") with
             | inl t => inl t
             | inr token =>
                 inr (dabblebaseUrl cfg ++ "/api/project/" ++ projectId cfg
                        ++ "/storage/view/" ++ encodedPath
                        ++ "?X-Project-Token=" ++ token)
             end
         end).
Proof.
  intros Hne. apply truthy_true_iff in Hne. unfold getUrl. rewrite Hne.
  cbn [negb]. destruct (encodedViewPath path) as [t|e]; [reflexivity|].
  cbn. destruct (encodeURIComponent (or_default (projectToken cfg) ""));
    reflexivity.
Qed.

Lemma encodedViewPath_returned (path encodedPath : string) :
  encodedViewPath path = inr encodedPath ->
  exists segments,
    encodedPath = join "/" segments
    /\ Forall2 (fun segment encoded => encodeURIComponent segment = inr encoded)
         (split slash path) segments.
Proof.
  unfold encodedViewPath.
  destruct (map_throwing encodeURIComponent (split slash path)) as [t|segs] eqn:Hmap;
    [discriminate|].
  intros Heq. injection Heq as <-. exists segs. split; [reflexivity|].
  apply map_throwing_returned. exact Hmap.
Qed.

Lemma encodedViewPath_returns (path : string) :
  has_unpaired_surrogate path = false ->
  exists encodedPath, encodedViewPath path = inr encodedPath.
Proof.
  intros Hs. rewrite <- split_has_unpaired_surrogate in Hs.
  assert (Hall : Forall (fun seg => exists e, encodeURIComponent seg = inr e)
                   (split slash path)).
  { apply Forall_forall. intros seg Hin. apply encodeURIComponent_returns.
    destruct (has_unpaired_surrogate seg) eqn:Hseg; [|reflexivity].
    assert (Hex : existsb has_unpaired_surrogate (split slash path) = true).
    { apply existsb_exists. exists seg. split; assumption. }
    congruence. }
  destruct (map_throwing_returns encodeURIComponent _ Hall) as [segs Hsegs].
  unfold encodedViewPath. rewrite Hsegs. eexists. reflexivity.
Qed.

Lemma encodedViewPath_throws (path : string) :
  has_unpaired_surrogate path = true ->
  encodedViewPath path = inl (ThrowError uri_malformed).
Proof.
  intros Hs. rewrite <- split_has_unpaired_surrogate in Hs.
  apply existsb_exists in Hs as (seg & Hin & Hseg).
  unfold encodedViewPath.
  rewrite (map_throwing_throws encodeURIComponent (split slash path)
             (ThrowError uri_malformed)); [reflexivity| |].
  - apply Forall_forall. intros x _.
    destruct (has_unpaired_surrogate x) eqn:Hx.
    + right. apply encodeURIComponent_throws. exact Hx.
    + left. apply encodeURIComponent_returns. exact Hx.
  - apply Exists_exists. exists seg. split; [exact Hin|].
    apply encodeURIComponent_throws. exact Hseg.
Qed.

(** The encoded segments, joined, split again into themselves: no [/] is
    added inside a segment and none is lost between two. *)
Lemma encoded_segments_split (segments encoded : Datatypes.list string) :
  segments <> [] ->
  Forall2 (fun segment enc => encodeURIComponent segment = inr enc)
    segments encoded ->
  split slash (join "/" encoded) = encoded.
Proof.
  intros Hnil Hall. apply (split_join slash).
  - destruct Hall; [congruence|discriminate].
  - clear Hnil. induction Hall as [|seg enc segs encs Henc _ IH]; constructor.
    + apply (encodeURIComponent_no_slash seg). exact Henc.
    + exact IH.
Qed.

Lemma encoded_segments_count (path : string) (encoded : Datatypes.list string) :
  Forall2 (fun segment enc => encodeURIComponent segment = inr enc)
    (split slash path) encoded ->
  count slash (join "/" encoded) = count slash path.
Proof.
  intros Hall.
  pose proof (split_length slash (join "/" encoded)) as Henc.
  rewrite (encoded_segments_split (split slash path) encoded
             (split_not_nil slash path) Hall) in Henc.
  rewrite <- (Forall2_length Hall), split_length in Henc. congruence.
Qed.

(** C6. For a non-empty path [getUrl] logs no event, so no request is made,
    and what it gives depends on the path and the configuration only. When
    the path or the configured token has an unpaired surrogate it throws the
    [URIError] of [encodeURIComponent] and gives no URL. Otherwise it returns
    the view URL, whose path part has one segment for each segment of [path],
    between the same [/] separators, each being the percent-encoding of the
    segment of [path] at its place: unreserved characters kept, every other
    byte written [%XX]; no separator is added or lost. *)
Theorem getUrl_pure_and_segmentwise
  (cfg : StorageClientConfiguration) (path : string) :
  path <> "" ->
  events (getUrl cfg path) = []
  /\ (has_unpaired_surrogate path
      || has_unpaired_surrogate (or_default (projectToken cfg) "") = true ->
      outcome (getUrl cfg path) = inl (ThrowError uri_malformed))
  /\ (has_unpaired_surrogate path = false ->
      has_unpaired_surrogate (or_default (projectToken cfg) "") = false ->
      exists segments token,
        outcome (getUrl cfg path)
        = inr (dabblebaseUrl cfg ++ "/api/project/" ++ projectId cfg
                 ++ "/storage/view/" ++ join "/" segments
                 ++ "?X-Project-Token=" ++ token)
        /\ Forall2 (fun segment encoded => percent_encoded segment encoded = true)
             (split slash path) segments
        /\ split slash (join "/" segments) = segments
        /\ join "/" (split slash path) = path
        /\ count slash (join "/" segments) = count slash path
        /\ percent_encoded (or_default (projectToken cfg) "") token = true).
Proof.
  intros Hne. rewrite (getUrl_run cfg path Hne). unfold events, outcome.
  cbn [fst snd]. split; [reflexivity|]. split.
  - intros Hbad. apply orb_true_iff in Hbad as [Hpath|Htoken].
    + rewrite (encodedViewPath_throws path Hpath). reflexivity.
    + rewrite (encodeURIComponent_throws _ Htoken).
      destruct (encodedViewPath path) as [t|e] eqn:Hview; [|reflexivity].
      destruct (has_unpaired_surrogate path) eqn:Hpath.
      * rewrite (encodedViewPath_throws path Hpath) in Hview. congruence.
      * destruct (encodedViewPath_returns path Hpath) as [e He]. congruence.
  - intros Hpath Htoken.
    destruct (encodedViewPath_returns path Hpath) as [e He].
    destruct (encodeURIComponent_returns _ Htoken) as [token Henc].
    destruct (encodedViewPath_returned path e He) as (segs & -> & Hsegs).
    rewrite He, Henc. exists segs, token. split; [reflexivity|].
    split; [|split; [|split; [|split]]].
    + clear He. induction Hsegs as [|seg enc segs' encs Hseg _ IH];
        constructor; [|exact IH].
      apply encodeURIComponent_percent_encoded. exact Hseg.
    + apply (encoded_segments_split (split slash path));
        [apply split_not_nil|exact Hsegs].
    + apply (join_split slash).
    + apply encoded_segments_count. exact Hsegs.
    + apply encodeURIComponent_percent_encoded. exact Henc.
Qed.

Definition cfg_example : StorageClientConfiguration :=
  mkStorageCfg "p1" "https://db.dev" (Some "t k").

Lemma getUrl_witness :
  getUrl cfg_example "uploads/my image.jpg" =
    ([], inr "https://db.dev/api/project/p1/storage/view/uploads/my%20image.jpg?X-Project-Token=t%20k")
  /\ events (getUrl cfg_example "uploads/my image.jpg") = []
  /\ percent_encoded "my image.jpg" "my%20image.jpg" = true.
Proof.
  split; [reflexivity|]. split; [|reflexivity].
  apply (getUrl_pure_and_segmentwise cfg_example "uploads/my image.jpg").
  discriminate.
Defined.

(** The one-character string of an unpaired high surrogate, [U+D800]. *)
Definition lone_surrogate : string :=
  String (ascii_of_nat 237) (String (ascii_of_nat 160) (String (ascii_of_nat 128) "")).

(** C6 as stated fails for a path or a token with an unpaired surrogate: the
    path [a/] followed by [U+D800] is not empty, and so is [a] under a
    configuration whose token is [U+D800], yet [getUrl] throws [URIError]
    and no URL with encoded segments is produced. *)
Lemma getUrl_throws_on_unpaired_surrogate :
  "a/" ++ lone_surrogate <> ""
  /\ getUrl cfg_example ("a/" ++ lone_surrogate)
     = ([], inl (ThrowError uri_malformed))
  /\ getUrl (mkStorageCfg "p1" "https://db.dev" (Some lone_surrogate)) "a"
     = ([], inl (ThrowError uri_malformed))
  /\ ~ (exists url,
          outcome (getUrl cfg_example ("a/" ++ lone_surrogate)) = inr url).
Proof.
  split; [discriminate|]. split; [reflexivity|]. split; [reflexivity|].
  intros [url Hurl]. discriminate Hurl.
Qed.

Section Client.

(** The network: what [fetch] settles to for a request. *)
Variable fetch : Request -> Thrown + Response.

(** A parsed JSON value, [response.json()] on a body, and the text that
    [`${result.url}`] gives for a parsed value. *)
Variable Json : Type.
Variable json_parse : string -> Thrown + Json.
Variable url_text : Json -> Thrown + string.

(** [upload], [list] and [delete] are [async]: a [throw] in them rejects the
    promise they return. *)
Definition upload (cfg : StorageClientConfiguration) (file : option File)
  (path : string) : Eff StorageEvent UploadResult :=
  match file with
  | None => throw (ThrowError file_required)
  | Some f =>
    if negb (truthy path) then throw (ThrowError upload_path_required)
    else
      emit EvFormDataNew ;;;
      emit (EvFormDataAppend "file" f) ;;;
      encodedPath <- eval (encodeURIComponent path) ;;
      let req := upload_request cfg f encodedPath in
      emit (EvFetch req) ;;;
      response <- settle (fetch req) ;;
      if negb (ok response) then
        emit EvResponseText ;;;
        throw (ThrowError (upload_failed response))
      else
        emit EvResponseJson ;;;
        result <- settle (json_parse (bodyText response)) ;;
        u <- settle (url_text result) ;;
        ret (mkUploadResult (dabblebaseUrl cfg ++ u))
  end.

Definition list (cfg : StorageClientConfiguration) : Eff StorageEvent Json :=
  let req := list_request cfg in
  emit (EvFetch req) ;;;
  response <- settle (fetch req) ;;
  if negb (ok response) then
    emit EvResponseText ;;;
    throw (ThrowError (list_failed response))
  else
    emit EvResponseJson ;;;
    settle (json_parse (bodyText response)).

Definition delete (cfg : StorageClientConfiguration) (path : string)
  : Eff StorageEvent unit :=
  if negb (truthy path) then throw (ThrowError delete_path_required)
  else
    encodedPath <- eval (encodeURIComponent path) ;;
    let req := delete_request cfg encodedPath in
    emit (EvFetch req) ;;;
    response <- settle (fetch req) ;;
    if negb (ok response) then throw (ThrowError (delete_failed response))
    else ret tt.

(** *** Properties of [upload], [list] and [delete] *)

(** C7. [upload] with an absent file or an empty path fails its precondition
    check: the promise is rejected with the missing-file error (checked
    first) or the missing-path error, and nothing has happened before: no
    form data was built and [fetch] was not called. *)
Theorem upload_precondition_before_request
  (cfg : StorageClientConfiguration) (file : option File) (path : string) :
  file = None \/ path = "" ->
  upload cfg file path =
    ([], inl (ThrowError (match file with
                          | None => file_required
                          | Some _ => upload_path_required
                          end))).
Proof.
  intros [->| ->]; [reflexivity|].
  destruct file as [f|]; reflexivity.
Qed.

(** Transport errors. When the response of the request is not a success
    ([ok] is false), none of the three operations returns a result: [upload]
    and [list] read the body text and then reject with an error made of the
    status, the status text and that body text; [delete] rejects with an
    error made of the status and the status text, without reading the
    body. *)
Theorem transport_error_raised
  (cfg : StorageClientConfiguration) (r : Response) :
  ok r = false ->
  (forall f path encodedPath,
      path <> "" -> encodeURIComponent path = inr encodedPath ->
      fetch (upload_request cfg f encodedPath) = inr r ->
      upload cfg (Some f) path =
        ([EvFormDataNew; EvFormDataAppend "file" f;
          EvFetch (upload_request cfg f encodedPath); EvResponseText],
         inl (ThrowError (upload_failed r))))
  /\ (fetch (list_request cfg) = inr r ->
      list cfg =
        ([EvFetch (list_request cfg); EvResponseText],
         inl (ThrowError (list_failed r))))
  /\ (forall path encodedPath,
        path <> "" -> encodeURIComponent path = inr encodedPath ->
        fetch (delete_request cfg encodedPath) = inr r ->
        delete cfg path =
          ([EvFetch (delete_request cfg encodedPath)],
           inl (ThrowError (delete_failed r))))
  /\ (forall text,
        delete_failed (mkResponse (ok r) (status r) (statusText r) text)
        = delete_failed r).
Proof.
  intros Hok. repeat split.
  - intros f path enc Hne Henc Hfetch. apply truthy_true_iff in Hne.
    unfold upload. rewrite Hne, Henc. simpl. rewrite Hfetch. simpl.
    rewrite Hok. reflexivity.
  - intros Hfetch. unfold list. simpl. rewrite Hfetch. simpl.
    rewrite Hok. reflexivity.
  - intros path enc Hne Henc Hfetch. apply truthy_true_iff in Hne.
    unfold delete. rewrite Hne, Henc. simpl. rewrite Hfetch. simpl.
    rewrite Hok. reflexivity.
Qed.

End Client.

(** A network that answers every request with the same response. *)
Definition fetch_always (r : Response) (req : Request) : Thrown + Response :=
  inr r.

Definition not_found (text : string) : Response :=
  mkResponse false 404 "Not Found" text.

Definition a_file : File := mkFile "my-image.jpg" "...".

Lemma upload_precondition_witness :
  upload (fetch_always (not_found "")) nat (fun _ => inr 0) (fun _ => inr "/u")
    cfg_example None "uploads/my-image.jpg"
  = ([], inl (ThrowError file_required))
  /\ upload (fetch_always (not_found "")) nat (fun _ => inr 0) (fun _ => inr "/u")
       cfg_example (Some a_file) ""
     = ([], inl (ThrowError upload_path_required)).
Proof.
  split.
  - apply (upload_precondition_before_request (fetch_always (not_found "")) nat
             (fun _ => inr 0) (fun _ => inr "/u") cfg_example None).
    left. reflexivity.
  - apply (upload_precondition_before_request (fetch_always (not_found "")) nat
             (fun _ => inr 0) (fun _ => inr "/u") cfg_example (Some a_file)).
    right. reflexivity.
Defined.

Lemma transport_error_witness :
  list (fetch_always (not_found "no such bucket")) nat (fun _ => inr 0) cfg_example
  = ([EvFetch (list_request cfg_example); EvResponseText],
     inl (ThrowError (Error
       "❌ (dabblebase): Failed to list files (404 Not Found). no such bucket"))).
Proof.
  destruct (transport_error_raised (fetch_always (not_found "no such bucket")) nat
              (fun _ => inr 0) (fun _ => inr "/u") cfg_example
              (not_found "no such bucket")) as [_ [Hlist _]].
  - reflexivity.
  - apply Hlist. reflexivity.
Defined.

(** A path with an unpaired surrogate passes the checks of [upload] and of
    [delete]; [encodeURIComponent] then throws, in [upload] after the form
    data was built, and [fetch] is not called. *)
Example upload_unpaired_surrogate_run :
  upload (fetch_always (not_found "")) nat (fun _ => inr 0) (fun _ => inr "/u")
    cfg_example (Some a_file) lone_surrogate
  = ([EvFormDataNew; EvFormDataAppend "file" a_file],
     inl (ThrowError uri_malformed)).
Proof. reflexivity. Qed.

Example delete_unpaired_surrogate_run :
  delete (fetch_always (not_found "")) cfg_example lone_surrogate
  = ([], inl (ThrowError uri_malformed)).
Proof. reflexivity. Qed.

(** C2 at [delete({path: "a/b"})] answered by [404 Not Found] with the body
    [no such file]. [delete] rejects, but it makes no [text()] call and its
    error is the same whatever the body says, where [list], answered by the
    same response, reads the body and puts it in its error. *)
Theorem delete_error_without_body_text :
  delete (fetch_always (not_found "no such file")) cfg_example "a/b"
  = ([EvFetch (delete_request cfg_example "a%2Fb")],
     inl (ThrowError (Error
       "❌ (dabblebase): Failed to delete the file (404 Not Found).")))
  /\ ~ In EvResponseText
       (events (delete (fetch_always (not_found "no such file")) cfg_example "a/b"))
  /\ outcome (delete (fetch_always (not_found "no such file")) cfg_example "a/b")
     = outcome (delete (fetch_always (not_found "disk on fire")) cfg_example "a/b")
  /\ list (fetch_always (not_found "no such file")) nat (fun _ => inr 0) cfg_example
     = ([EvFetch (list_request cfg_example); EvResponseText],
        inl (ThrowError (Error
          "❌ (dabblebase): Failed to list files (404 Not Found). no such file"))).
Proof.
  split; [reflexivity|]. split; [|split; reflexivity].
  simpl. intros [H|[]]. discriminate H.
Qed.

(** *** Further properties of the storage client *)

(** **** String append *)

Lemma append_nil_r (s : string) : s ++ "" = s.
Proof. induction s as [|c rest IH]; simpl; [reflexivity|]. rewrite IH. reflexivity. Qed.

Lemma append_assoc (a b c : string) : (a ++ b) ++ c = a ++ (b ++ c).
Proof. induction a as [|x rest IH]; simpl; [reflexivity|]. rewrite IH. reflexivity. Qed.


Lemma append_inv_head (p a b : string) : p ++ a = p ++ b -> a = b.
Proof.
  induction p as [|x rest IH]; simpl; intros Heq; [exact Heq|].
  injection Heq as Heq. apply IH. exact Heq.
Qed.


(** **** The alphabet of an encoded component *)

(** Every character of [s] satisfies [p]. *)
Fixpoint all_chars (p : ascii -> bool) (s : string) : bool :=
  match s with
  | EmptyString => true
  | String c rest => p c && all_chars p rest
  end.



Lemma all_chars_append (p : ascii -> bool) (a b : string) :
  all_chars p (a ++ b) = all_chars p a && all_chars p b.
Proof.
  induction a as [|c rest IH]; simpl; [reflexivity|].
  rewrite IH. apply andb_assoc.
Qed.


Lemma all_chars_excludes (p : ascii -> bool) (s : string) (c : ascii) :
  all_chars p s = true -> p c = false -> contains c s = false.
Proof.
  induction s as [|d rest IH]; simpl; [reflexivity|].
  intros Hall Hc. apply andb_true_iff in Hall as [Hd Hrest].
  rewrite (IH Hrest Hc), orb_false_r.
  destruct (Ascii.eqb_spec d c) as [->|Hne]; [congruence|reflexivity].
Qed.



(** **** Different paths, different URLs *)











(** **** Paths that need no escaping *)

Lemma encodeURIComponent_unreserved (s : string) :
  all_chars is_unreserved s = true -> encodeURIComponent s = inr s.
Proof.
  induction s as [|c rest IH]; [reflexivity|].
  cbn [all_chars encodeURIComponent]. intros H.
  apply andb_true_iff in H as [Hc Hrest]. rewrite Hc, (IH Hrest). reflexivity.
Qed.

Lemma split_segments_satisfy (p : ascii -> bool) (sep : ascii) (s : string) :
  all_chars (fun c => p c || Ascii.eqb c sep) s = true ->
  Forall (fun seg => all_chars p seg = true) (split sep s).
Proof.
  induction s as [|c rest IH]; cbn [all_chars split].
  - intros _. constructor; [reflexivity|constructor].
  - intros H. apply andb_true_iff in H as [Hc Hrest]. specialize (IH Hrest).
    destruct (Ascii.eqb c sep) eqn:Hsep.
    + constructor; [reflexivity|exact IH].
    + rewrite orb_false_r in Hc.
      destruct (split sep rest) as [|seg segs]; [constructor; [|constructor]|].
      * cbn [all_chars]. rewrite Hc. reflexivity.
      * inversion IH as [|? ? Hseg Hsegs]; subst.
        constructor; [|exact Hsegs]. cbn [all_chars]. rewrite Hc. exact Hseg.
Qed.

(** A character of a path that [getUrl] leaves as it is: an unreserved
    one or the [/] between segments. *)
Definition plain_path_char (c : ascii) : bool :=
  is_unreserved c || Ascii.eqb c slash.

(** X7. A path made of unreserved characters and [/] only stands in the view
    URL exactly as it was given. *)
Theorem view_url_keeps_plain_paths
  (cfg : StorageClientConfiguration) (path token : string) :
  path <> "" -> all_chars plain_path_char path = true ->
  encodeURIComponent (or_default (projectToken cfg) "") = inr token ->
  getUrl cfg path
  = ([], inr (dabblebaseUrl cfg ++ "/api/project/" ++ projectId cfg
                ++ "/storage/view/" ++ path ++ "?X-Project-Token=" ++ token)).
Proof.
  intros Hne Hplain Htoken. rewrite (getUrl_run cfg path Hne), Htoken.
  assert (Hsame : encodedViewPath path = inr path).
  { unfold encodedViewPath.
    pose proof (split_segments_satisfy is_unreserved slash path Hplain) as Hsegs.
    assert (Hmap : map_throwing encodeURIComponent (split slash path)
                   = inr (split slash path)).
    { induction Hsegs as [|seg segs Hseg _ IH]; [reflexivity|].
      cbn [map_throwing]. rewrite (encodeURIComponent_unreserved seg Hseg), IH.
      reflexivity. }
    rewrite Hmap, (join_split slash). reflexivity. }
  rewrite Hsame. reflexivity.
Qed.

Lemma view_url_keeps_plain_paths_witness :
  getUrl cfg_example "uploads/2024/my-image.jpg"
  = ([], inr "https://db.dev/api/project/p1/storage/view/uploads/2024/my-image.jpg?X-Project-Token=t%20k").
Proof.
  apply (view_url_keeps_plain_paths cfg_example "uploads/2024/my-image.jpg" "t%20k").
  - discriminate.
  - reflexivity.
  - reflexivity.
Defined.

(** **** Requests and results *)

Section Outcomes.

Variable fetch : Request -> Thrown + Response.
Variable Json : Type.
Variable json_parse : string -> Thrown + Json.
Variable url_text : Json -> Thrown + string.

(** X8. [upload] resolves exactly when a file and a path that can be encoded
    are given, the response is a success and its body parses to a value with
    a readable [url]; the URL it resolves with is [dabblebaseUrl] followed by
    that [url]. *)
Theorem upload_resolves_iff
  (cfg : StorageClientConfiguration) (file : option File) (path : string)
  (result : UploadResult) :
  outcome (upload fetch Json json_parse url_text cfg file path) = inr result
  <-> exists f encodedPath r j u,
        file = Some f /\ path <> ""
        /\ encodeURIComponent path = inr encodedPath
        /\ fetch (upload_request cfg f encodedPath) = inr r /\ ok r = true
        /\ json_parse (bodyText r) = inr j /\ url_text j = inr u
        /\ result = mkUploadResult (dabblebaseUrl cfg ++ u).
Proof.
  unfold upload, outcome. split.
  - destruct file as [f|]; [|discriminate].
    destruct (truthy path) eqn:Hp; [|discriminate].
    cbn. destruct (encodeURIComponent path) as [t|enc] eqn:He; [discriminate|].
    cbn. destruct (fetch (upload_request cfg f enc)) as [t|r] eqn:Hf; [discriminate|].
    cbn. destruct (ok r) eqn:Hok; [|discriminate].
    cbn. destruct (json_parse (bodyText r)) as [t|j] eqn:Hj; [discriminate|].
    cbn. destruct (url_text j) as [t|u] eqn:Hu; [discriminate|].
    cbn. intros H. injection H as <-.
    exists f, enc, r, j, u. apply truthy_true_iff in Hp.
    repeat split; assumption.
  - intros (f & enc & r & j & u & -> & Hp & He & Hf & Hok & Hj & Hu & ->).
    apply truthy_true_iff in Hp. rewrite Hp. cbn. rewrite He. cbn.
    rewrite Hf. cbn. rewrite Hok. cbn. rewrite Hj. cbn. rewrite Hu. reflexivity.
Qed.

(** X9. [list] resolves exactly when the response is a success and its body
    parses, with the parsed value; [delete] resolves exactly when a path that
    can be encoded is given and the response is a success, and it does not
    read the body. *)
Theorem list_and_delete_resolve_iff
  (cfg : StorageClientConfiguration) (path : string) (files : Json) :
  (outcome (list fetch Json json_parse cfg) = inr files
   <-> exists r,
         fetch (list_request cfg) = inr r /\ ok r = true
         /\ json_parse (bodyText r) = inr files)
  /\ (outcome (delete fetch cfg path) = inr tt
      <-> path <> ""
          /\ exists encodedPath r,
               encodeURIComponent path = inr encodedPath
               /\ fetch (delete_request cfg encodedPath) = inr r /\ ok r = true)
  /\ (outcome (delete fetch cfg path) = inr tt ->
      exists encodedPath,
        encodeURIComponent path = inr encodedPath
        /\ events (delete fetch cfg path)
           = [EvFetch (delete_request cfg encodedPath)]).
Proof.
  split; [|split].
  - unfold list, outcome. split.
    + cbn. destruct (fetch (list_request cfg)) as [t|r] eqn:Hf; [discriminate|].
      cbn. destruct (ok r) eqn:Hok; [|discriminate].
      cbn. destruct (json_parse (bodyText r)) as [t|j] eqn:Hj; [discriminate|].
      cbn. intros H. injection H as <-. exists r. repeat split; assumption.
    + intros (r & Hf & Hok & Hj). cbn. rewrite Hf. cbn. rewrite Hok. cbn.
      rewrite Hj. reflexivity.
  - unfold delete, outcome. split.
    + destruct (truthy path) eqn:Hp; [|discriminate].
      cbn. destruct (encodeURIComponent path) as [t|enc] eqn:He; [discriminate|].
      cbn. destruct (fetch (delete_request cfg enc)) as [t|r] eqn:Hf; [discriminate|].
      cbn. destruct (ok r) eqn:Hok; [|discriminate].
      intros _. apply truthy_true_iff in Hp. split; [exact Hp|].
      exists enc, r. repeat split; assumption.
    + intros (Hp & enc & r & He & Hf & Hok). apply truthy_true_iff in Hp.
      rewrite Hp. cbn. rewrite He. cbn. rewrite Hf. cbn. rewrite Hok.
      reflexivity.
  - unfold delete, outcome, events.
    destruct (truthy path) eqn:Hp; [|discriminate].
    cbn. destruct (encodeURIComponent path) as [t|enc] eqn:He; [discriminate|].
    cbn. destruct (fetch (delete_request cfg enc)) as [t|r] eqn:Hf; [discriminate|].
    cbn. destruct (ok r) eqn:Hok; [|discriminate].
    intros _. exists enc. split; reflexivity.
Qed.

(** X10. When [fetch] itself rejects (the network fails), each operation rejects
    with the same reason, right after its one request: no body is read and
    the reason is not wrapped in a storage error. *)
Theorem fetch_rejection_propagates
  (cfg : StorageClientConfiguration) (t : Thrown) :
  (forall f path encodedPath,
      path <> "" -> encodeURIComponent path = inr encodedPath ->
      fetch (upload_request cfg f encodedPath) = inl t ->
      upload fetch Json json_parse url_text cfg (Some f) path
      = ([EvFormDataNew; EvFormDataAppend "file" f;
          EvFetch (upload_request cfg f encodedPath)], inl t))
  /\ (fetch (list_request cfg) = inl t ->
      list fetch Json json_parse cfg = ([EvFetch (list_request cfg)], inl t))
  /\ (forall path encodedPath,
        path <> "" -> encodeURIComponent path = inr encodedPath ->
        fetch (delete_request cfg encodedPath) = inl t ->
        delete fetch cfg path
        = ([EvFetch (delete_request cfg encodedPath)], inl t)).
Proof.
  repeat split.
  - intros f path enc Hp He Hf. apply truthy_true_iff in Hp.
    unfold upload. rewrite Hp, He. cbn. rewrite Hf. reflexivity.
  - intros Hf. unfold list. cbn. rewrite Hf. reflexivity.
  - intros path enc Hp He Hf. apply truthy_true_iff in Hp.
    unfold delete. rewrite Hp, He. cbn. rewrite Hf. reflexivity.
Qed.

(** [e] is a call of [fetch]. *)
Definition is_fetch (e : StorageEvent) : bool :=
  match e with
  | EvFetch _ => true
  | _ => false
  end.

(** The number of requests a run has made. *)
Definition requests {A} (m : Eff StorageEvent A) : nat :=
  List.length (filter is_fetch (events m)).

(** X11. The number of requests of an operation is fixed by its arguments and
    never by the answer: [list] makes one; [upload] and [delete] make one
    when their arguments pass the checks and the path can be encoded, and
    none otherwise, so none for a path with an unpaired surrogate, on which
    [encodeURIComponent] throws before [fetch] is called; [getUrl] makes
    none. Nothing is retried. *)
Theorem requests_fixed_by_arguments
  (cfg : StorageClientConfiguration) (file : option File) (path : string) :
  requests (upload fetch Json json_parse url_text cfg file path)
  = match file with
    | Some _ =>
        if truthy path then if has_unpaired_surrogate path then 0 else 1
        else 0
    | None => 0
    end
  /\ requests (list fetch Json json_parse cfg) = 1
  /\ requests (delete fetch cfg path)
     = (if truthy path then if has_unpaired_surrogate path then 0 else 1
        else 0)
  /\ requests (getUrl cfg path) = 0.
Proof.
  unfold requests, events. repeat split.
  - unfold upload. destruct file as [f|]; [|reflexivity].
    destruct (truthy path); [|reflexivity].
    destruct (has_unpaired_surrogate path) eqn:Hs.
    + rewrite (encodeURIComponent_throws path Hs). reflexivity.
    + destruct (encodeURIComponent_returns path Hs) as [enc ->].
      cbn. destruct (fetch (upload_request cfg f enc)) as [t|r]; [reflexivity|].
      cbn. destruct (ok r); [|reflexivity].
      cbn. destruct (json_parse (bodyText r)) as [t|j]; [reflexivity|].
      cbn. destruct (url_text j); reflexivity.
  - unfold list. cbn. destruct (fetch (list_request cfg)) as [t|r]; [reflexivity|].
    cbn. destruct (ok r); [reflexivity|].
    cbn. destruct (json_parse (bodyText r)); reflexivity.
  - unfold delete. destruct (truthy path); [|reflexivity].
    destruct (has_unpaired_surrogate path) eqn:Hs.
    + rewrite (encodeURIComponent_throws path Hs). reflexivity.
    + destruct (encodeURIComponent_returns path Hs) as [enc ->].
      cbn. destruct (fetch (delete_request cfg enc)) as [t|r]; [reflexivity|].
      cbn. destruct (ok r); reflexivity.
  - unfold getUrl. destruct (truthy path); [|reflexivity].
    cbn [negb]. destruct (encodedViewPath path) as [t|e]; [reflexivity|].
    cbn. destruct (encodeURIComponent (or_default (projectToken cfg) ""));
      reflexivity.
Qed.

End Outcomes.

(** **** Headers *)

(** The value of the header [name], when it is set. *)
Definition header (name : string) (hs : Datatypes.list (string * string))
  : option string :=
  match find (fun h => String.eqb (fst h) name) hs with
  | Some h => Some (snd h)
  | None => None
  end.

(** X12. [upload] always sends [X-Project-Token], empty when no token is
    configured, and never sets [Content-Type]; [list] and [delete] send the
    same headers as each other, [Content-Type: application/json] always and
    [X-Project-Token] only when a non-empty token is configured. *)
Theorem request_headers
  (cfg : StorageClientConfiguration) (file : File) (path : string) :
  header "Content-Type" (headers (upload_request cfg file path)) = None
  /\ header "X-Project-Token" (headers (upload_request cfg file path))
     = Some (or_default (projectToken cfg) "")
  /\ headers (delete_request cfg path) = headers (list_request cfg)
  /\ header "Content-Type" (headers (list_request cfg)) = Some "application/json"
  /\ header "X-Project-Token" (headers (list_request cfg))
     = (if truthy_opt (projectToken cfg) then projectToken cfg else None).
Proof.
  repeat split.
  unfold list_request, getAuthHeaders. cbn [headers].
  destruct (projectToken cfg) as [t|]; [|reflexivity].
  cbn [truthy_opt]. destruct (truthy t); reflexivity.
Qed.

End Storage.

(** ** String methods used on cookies *)

Module JsString.
Import Storage.

Definition byte_is (c : ascii) (n : N) : bool := (N_of_ascii c =? n)%N.

Definition byte_in (c : ascii) (lo hi : N) : bool :=
  ((lo <=? N_of_ascii c) && (N_of_ascii c <=? hi))%N.

(** White space and line terminators, as [trim] knows them, in UTF-8: the
    characters U+0009 to U+000D and U+0020 in one byte, U+00A0 in two, and
    U+1680, U+2000 to U+200A, U+2028, U+2029, U+202F, U+205F, U+3000 and
    U+FEFF in three. *)
Definition is_ws1 (c : ascii) : bool := byte_in c 9 13 || byte_is c 32.

Definition is_ws2 (c1 c2 : ascii) : bool := byte_is c1 194 && byte_is c2 160.

Definition is_ws3 (c1 c2 c3 : ascii) : bool :=
  (byte_is c1 225 && byte_is c2 154 && byte_is c3 128)
  || (byte_is c1 226 && byte_is c2 128
      && (byte_in c3 128 138 || byte_is c3 168 || byte_is c3 169 || byte_is c3 175))
  || (byte_is c1 226 && byte_is c2 129 && byte_is c3 159)
  || (byte_is c1 227 && byte_is c2 128 && byte_is c3 128)
  || (byte_is c1 239 && byte_is c2 187 && byte_is c3 191).

(** [s.trimStart()] *)
Fixpoint trimStart (s : string) : string :=
  match s with
  | EmptyString => EmptyString
  | String c1 r1 =>
      if is_ws1 c1 then trimStart r1
      else
        match r1 with
        | String c2 r2 =>
            if is_ws2 c1 c2 then trimStart r2
            else
              match r2 with
              | String c3 r3 => if is_ws3 c1 c2 c3 then trimStart r3 else s
              | EmptyString => s
              end
        | EmptyString => s
        end
  end.

(** [s] is made of white space only. *)
Fixpoint all_ws (s : string) : bool :=
  match s with
  | EmptyString => true
  | String c1 r1 =>
      if is_ws1 c1 then all_ws r1
      else
        match r1 with
        | String c2 r2 =>
            if is_ws2 c1 c2 then all_ws r2
            else
              match r2 with
              | String c3 r3 => is_ws3 c1 c2 c3 && all_ws r3
              | EmptyString => false
              end
        | EmptyString => false
        end
  end.

(** [s.trimEnd()] *)
Fixpoint trimEnd (s : string) : string :=
  match s with
  | EmptyString => EmptyString
  | String c rest => if all_ws s then EmptyString else String c (trimEnd rest)
  end.

(** [s.trim()] *)
Definition trim (s : string) : string := trimEnd (trimStart s).

(** [s.startsWith(p)] *)
Definition startsWith (p s : string) : bool := String.prefix p s.

(** [c] can be the first byte of a white space character. *)
Definition ws_start (c : ascii) : bool :=
  is_ws1 c || byte_is c 194 || byte_is c 225 || byte_is c 226
  || byte_is c 227 || byte_is c 239.

(** A string with no byte that can start a white space character. *)
Definition no_ws (s : string) : bool := all_chars (fun c => negb (ws_start c)) s.

(** **** [trim] on strings without white space *)

Lemma ws_start_false (c : ascii) :
  ws_start c = false ->
  is_ws1 c = false
  /\ (forall c2, is_ws2 c c2 = false)
  /\ (forall c2 c3, is_ws3 c c2 c3 = false).
Proof.
  unfold ws_start. intros H.
  apply orb_false_iff in H as [H H239]. apply orb_false_iff in H as [H H227].
  apply orb_false_iff in H as [H H226]. apply orb_false_iff in H as [H H225].
  apply orb_false_iff in H as [H1 H194].
  split; [exact H1|]. split.
  - intros c2. unfold is_ws2. rewrite H194. reflexivity.
  - intros c2 c3. unfold is_ws3. rewrite H225, H226, H227, H239. reflexivity.
Qed.

Lemma trimStart_keeps (c : ascii) (rest : string) :
  ws_start c = false -> trimStart (String c rest) = String c rest.
Proof.
  intros H. destruct (ws_start_false c H) as (H1 & H2 & H3).
  cbn [trimStart]. rewrite H1.
  destruct rest as [|c2 r2]; [reflexivity|]. rewrite H2.
  destruct r2 as [|c3 r3]; [reflexivity|]. rewrite H3. reflexivity.
Qed.

Lemma trimStart_skips (c : ascii) (rest : string) :
  is_ws1 c = true -> trimStart (String c rest) = trimStart rest.
Proof. intros H. cbn [trimStart]. rewrite H. reflexivity. Qed.

Lemma all_ws_false (c : ascii) (rest : string) :
  ws_start c = false -> all_ws (String c rest) = false.
Proof.
  intros H. destruct (ws_start_false c H) as (H1 & H2 & H3).
  cbn [all_ws]. rewrite H1.
  destruct rest as [|c2 r2]; [reflexivity|]. rewrite H2.
  destruct r2 as [|c3 r3]; [reflexivity|]. rewrite H3. reflexivity.
Qed.

Lemma trimEnd_keeps (c : ascii) (rest : string) :
  ws_start c = false -> trimEnd (String c rest) = String c (trimEnd rest).
Proof.
  intros H. cbn [trimEnd]. rewrite (all_ws_false c rest H). reflexivity.
Qed.

Lemma trimEnd_no_ws (s : string) : no_ws s = true -> trimEnd s = s.
Proof.
  unfold no_ws. induction s as [|c rest IH]; [reflexivity|].
  cbn [all_chars]. intros H. apply andb_true_iff in H as [Hc Hrest].
  apply negb_true_iff in Hc. rewrite (trimEnd_keeps c rest Hc), (IH Hrest).
  reflexivity.
Qed.

Lemma trimEnd_append_no_ws (a b : string) :
  no_ws a = true -> trimEnd (a ++ b) = a ++ trimEnd b.
Proof.
  unfold no_ws. induction a as [|c rest IH]; [reflexivity|].
  cbn [all_chars append]. intros H. apply andb_true_iff in H as [Hc Hrest].
  apply negb_true_iff in Hc. rewrite (trimEnd_keeps c _ Hc), (IH Hrest).
  reflexivity.
Qed.

Lemma unreserved_no_ws_start (c : ascii) :
  is_unreserved c = true -> ws_start c = false.
Proof. destruct c as [[] [] [] [] [] [] [] []]; vm_compute; congruence. Qed.

Lemma unreserved_no_ws (s : string) :
  all_chars is_unreserved s = true -> no_ws s = true.
Proof.
  unfold no_ws. induction s as [|c rest IH]; [reflexivity|].
  cbn [all_chars]. intros H. apply andb_true_iff in H as [Hc Hrest].
  rewrite (unreserved_no_ws_start c Hc), (IH Hrest). reflexivity.
Qed.

(** **** Segments of a split *)

Lemma split_append (sep : ascii) (a b : string) :
  split sep (a ++ String sep b) = (split sep a ++ split sep b)%list.
Proof.
  induction a as [|c rest IH]; simpl.
  - rewrite Ascii.eqb_refl. reflexivity.
  - destruct (Ascii.eqb c sep); rewrite IH; [reflexivity|].
    pose proof (split_not_nil sep rest) as Hnil.
    destruct (split sep rest) as [|seg segs]; [congruence|reflexivity].
Qed.

Lemma split_segment_chars (sep c : ascii) (s seg : string) :
  In seg (split sep s) -> contains c s = false -> contains c seg = false.
Proof.
  revert seg. induction s as [|d rest IH]; simpl; intros seg Hin Hc.
  - destruct Hin as [<-|[]]. reflexivity.
  - apply orb_false_iff in Hc as [Hd Hrest].
    destruct (Ascii.eqb d sep).
    + destruct Hin as [<-|Hin]; [reflexivity|]. apply IH; assumption.
    + pose proof (split_not_nil sep rest) as Hnil.
      destruct (split sep rest) as [|seg0 segs]; [congruence|].
      destruct Hin as [<-|Hin].
      * simpl. rewrite Hd. apply IH; [left; reflexivity|exact Hrest].
      * apply IH; [right; exact Hin|exact Hrest].
Qed.

Lemma split_segment_no_sep (sep : ascii) (s seg : string) :
  In seg (split sep s) -> contains sep seg = false.
Proof.
  revert seg. induction s as [|d rest IH]; simpl; intros seg Hin.
  - destruct Hin as [<-|[]]. reflexivity.
  - destruct (Ascii.eqb d sep) eqn:Hd.
    + destruct Hin as [<-|Hin]; [reflexivity|]. apply IH. exact Hin.
    + pose proof (split_not_nil sep rest) as Hnil.
      destruct (split sep rest) as [|seg0 segs]; [congruence|].
      destruct Hin as [<-|Hin].
      * simpl. rewrite Hd. apply IH. left. reflexivity.
      * apply IH. right. exact Hin.
Qed.

(** **** Cookies *)

Definition semicolon : ascii := ";"%char.
Definition equals : ascii := "="%char.

Lemma no_ws_append (a b : string) : no_ws (a ++ b) = no_ws a && no_ws b.
Proof. apply all_chars_append. Qed.

Lemma startsWith_append (p rest : string) : startsWith p (p ++ rest) = true.
Proof.
  unfold startsWith. induction p as [|c p' IH]; simpl.
  - destruct rest; reflexivity.
  - destruct (ascii_dec c c) as [_|Hne]; [exact IH|congruence].
Qed.

(** An unreserved character is neither [;] nor [=]. *)
Lemma unreserved_excludes (v : string) (c : ascii) :
  all_chars is_unreserved v = true -> is_unreserved c = false ->
  contains c v = false.
Proof. intros Hv Hc. apply (all_chars_excludes is_unreserved); assumption. Qed.

(** A cookie [ auth-token=v], as it stands after a [;] in
    [document.cookie], trims to [auth-token=v] when [v] has no white
    space. *)
Lemma trim_auth_cookie (v tail : string) :
  no_ws v = true ->
  trim (" auth-token=" ++ v ++ tail) = "auth-token=" ++ v ++ trimEnd tail
  /\ trim ("auth-token=" ++ v ++ tail) = "auth-token=" ++ v ++ trimEnd tail.
Proof.
  intros Hv.
  assert (Hend : trimEnd ("auth-token=" ++ v ++ tail)
                 = "auth-token=" ++ v ++ trimEnd tail).
  { change ("auth-token=" ++ v ++ tail) with ("auth-token=" ++ (v ++ tail)).
    rewrite (trimEnd_append_no_ws "auth-token=" (v ++ tail) eq_refl).
    rewrite (trimEnd_append_no_ws v tail Hv). reflexivity. }
  unfold trim. split.
  - change (" auth-token=" ++ v ++ tail)
      with (String " " (String "a" ("uth-token=" ++ v ++ tail))).
    rewrite trimStart_skips by reflexivity.
    rewrite trimStart_keeps by reflexivity. exact Hend.
  - change ("auth-token=" ++ v ++ tail)
      with (String "a" ("uth-token=" ++ v ++ tail)) at 1.
    rewrite trimStart_keeps by reflexivity. exact Hend.
Qed.

Lemma find_app_none {A} (f : A -> bool) (xs ys : Datatypes.list A) :
  find f xs = None -> find f (xs ++ ys) = find f ys.
Proof.
  induction xs as [|x xs IH]; simpl; [reflexivity|].
  destruct (f x); [discriminate|exact IH].
Qed.

Lemma split_head_append (sep : ascii) (a b : string) :
  contains sep a = false ->
  split sep (a ++ b) = (a ++ hd EmptyString (split sep b)) :: tl (split sep b).
Proof.
  induction a as [|c rest IH]; simpl.
  - intros _. pose proof (split_not_nil sep b) as Hnil.
    destruct (split sep b); [congruence|reflexivity].
  - intros H. apply orb_false_iff in H as [Hc Hrest].
    rewrite Hc, (IH Hrest). reflexivity.
Qed.

(** Where a cookie value ends: at the end of the string, at the [;] before
    the next cookie, or at a [=]. *)
Definition value_ends (tail : string) : bool :=
  match tail with
  | EmptyString => true
  | String c _ => Ascii.eqb c semicolon || Ascii.eqb c equals
  end.

Lemma value_ends_head (tail : string) :
  value_ends tail = true ->
  hd EmptyString (split semicolon tail) = EmptyString
  \/ exists h, hd EmptyString (split semicolon tail) = String equals h.
Proof.
  destruct tail as [|c t]; simpl; [left; reflexivity|].
  intros H. destruct (Ascii.eqb_spec c semicolon) as [->|Hsemi].
  - left. reflexivity.
  - simpl in H. apply Ascii.eqb_eq in H. subst c. right.
    pose proof (split_not_nil semicolon t) as Hnil.
    destruct (split semicolon t) as [|seg segs]; [congruence|].
    exists seg. reflexivity.
Qed.

Lemma split_value_head (v h : string) :
  contains equals v = false ->
  h = EmptyString \/ (exists h', h = String equals h') ->
  exists more, split equals (v ++ h) = v :: more.
Proof.
  intros Hv [->|[h' ->]].
  - rewrite append_nil_r, (split_without_sep equals v Hv). exists []. reflexivity.
  - rewrite (split_app_sep equals v h' Hv). eexists. reflexivity.
Qed.

End JsString.

(** ** Internal utilities ([src/internal/utils.ts]) *)

Module Utils.
Import Js Eff JsString.
Local Open Scope eff_scope.

Inductive UtilsEvent : Type :=
| EvConsoleError (msg : string).

Definition cannot_authenticate : string :=
  "❌ (dabblebase): The user cannot authenticate".

Definition cookie_not_found : JsError :=
  Error "Auth token cookie not found - please log in again".

Definition cookie_empty : JsError :=
  Error "Auth token cookie is empty - please log in again".

(** What the evaluation of [document] throws where there is none. *)
Definition document_undefined : JsError :=
  mkJsError "ReferenceError" "document is not defined".

(** The test of [cookies.find]. *)
Definition is_auth_cookie (cookie : string) : bool :=
  startsWith "auth-token=" (trim cookie).

(** [document] is [None] where [typeof document] is ["undefined"], and
    [document.cookie] otherwise. *)
Definition getUserAuthToken (document : option string)
  : Eff UtilsEvent string :=
  (if match document with
      | None => true
      | Some cookie => negb (truthy cookie)
      end
   then emit (EvConsoleError cannot_authenticate)
   else ret tt) ;;;
  match document with
  | None => throw (ThrowError document_undefined)
  | Some cookie =>
      let cookies := Storage.split semicolon cookie in
      match find is_auth_cookie cookies with
      | None => throw (ThrowError cookie_not_found)
      | Some authTokenCookie =>
          if negb (truthy authTokenCookie) then throw (ThrowError cookie_not_found)
          else
            match nth_error (Storage.split equals authTokenCookie) 1 with
            | None => throw (ThrowError cookie_empty)
            | Some token =>
                if negb (truthy token) || String.eqb (trim token) ""
                then throw (ThrowError cookie_empty)
                else ret token
            end
      end
  end.

(** *** Properties of [getUserAuthToken] *)

(** X13. A token that [getUserAuthToken] returns is not empty, is not white
    space only, and has no [;] and no [=] in it; and a run that returns has
    logged nothing. *)
Theorem getUserAuthToken_token_shape (document : option string) (token : string) :
  outcome (getUserAuthToken document) = inr token ->
  token <> ""
  /\ trim token <> ""
  /\ Storage.contains semicolon token = false
  /\ Storage.contains equals token = false
  /\ events (getUserAuthToken document) = [].
Proof.
  unfold getUserAuthToken, outcome, events.
  destruct document as [cookie|]; [|discriminate].
  destruct (find is_auth_cookie (Storage.split semicolon cookie))
    as [authTokenCookie|] eqn:Hfind.
  2:{ destruct (negb (truthy cookie)); discriminate. }
  apply find_some in Hfind as [Hin Hauth].
  destruct (truthy authTokenCookie) eqn:Hc.
  2:{ destruct (negb (truthy cookie)); discriminate. }
  destruct (nth_error (Storage.split equals authTokenCookie) 1)
    as [tok|] eqn:Hnth.
  2:{ destruct (negb (truthy cookie)); discriminate. }
  destruct (truthy tok) eqn:Htok.
  2:{ destruct (negb (truthy cookie)); discriminate. }
  destruct (String.eqb_spec (trim tok) "") as [Hblank|Hblank].
  { destruct (negb (truthy cookie)); discriminate. }
  assert (Hcookie : truthy cookie = true).
  { destruct cookie as [|c rest]; [|reflexivity].
    simpl in Hin. destruct Hin as [<-|[]]. discriminate Hc. }
  rewrite Hcookie. cbn. intros H. injection H as <-.
  apply nth_error_In in Hnth.
  split; [apply truthy_true_iff; exact Htok|].
  split; [exact Hblank|].
  split; [|split; [|reflexivity]].
  - apply (split_segment_chars equals semicolon authTokenCookie tok Hnth).
    apply (split_segment_no_sep semicolon cookie authTokenCookie Hin).
  - apply (split_segment_no_sep equals authTokenCookie tok Hnth).
Qed.

Lemma getUserAuthToken_token_shape_witness :
  "abc.def" <> "" /\ Storage.contains equals "abc.def" = false.
Proof.
  destruct (getUserAuthToken_token_shape
              (Some "theme=dark; auth-token=abc.def; lang=en") "abc.def" eq_refl)
    as (Hne & _ & _ & Heq & _).
  split; [exact Hne|exact Heq].
Defined.

(** What [getUserAuthToken] does with the first cookie that passes its
    test, when the value [v] of that cookie is not empty and made of
    unreserved characters. *)
Lemma auth_cookie_token (cookie before v h : string) (after : list string) :
  (before = "" \/ before = " ") ->
  v <> "" -> Storage.all_chars Storage.is_unreserved v = true ->
  (h = "" \/ exists h', h = String equals h') ->
  find is_auth_cookie (Storage.split semicolon cookie)
    = Some (before ++ "auth-token=" ++ v ++ h) ->
  getUserAuthToken (Some cookie) = ([], inr v).
Proof.
  intros Hbefore Hv Hchars Hh Hfind.
  assert (Heq : Storage.contains equals v = false)
    by (apply unreserved_excludes; [exact Hchars|reflexivity]).
  assert (Hcookie : truthy cookie = true).
  { destruct cookie as [|c rest]; [|reflexivity].
    simpl in Hfind. destruct Hbefore as [-> | ->]; discriminate Hfind. }
  destruct (split_value_head v h Heq Hh) as [more Hsplit].
  assert (Hnth : nth_error (Storage.split equals (before ++ "auth-token=" ++ v ++ h)) 1
                 = Some v).
  { destruct Hbefore as [-> | ->].
    - change ("" ++ "auth-token=" ++ v ++ h)
        with ("auth-token" ++ String equals (v ++ h)).
      rewrite (Storage.split_app_sep equals "auth-token" (v ++ h) eq_refl), Hsplit.
      reflexivity.
    - change (" " ++ "auth-token=" ++ v ++ h)
        with (" auth-token" ++ String equals (v ++ h)).
      rewrite (Storage.split_app_sep equals " auth-token" (v ++ h) eq_refl), Hsplit.
      reflexivity. }
  assert (Htrim : trim v = v).
  { unfold trim. pose proof (unreserved_no_ws v Hchars) as Hnows.
    destruct v as [|c rest]; [congruence|].
    rewrite trimStart_keeps.
    - apply trimEnd_no_ws. exact Hnows.
    - unfold no_ws in Hnows. cbn [Storage.all_chars] in Hnows.
      apply andb_true_iff in Hnows as [Hc _]. apply negb_true_iff. exact Hc. }
  unfold getUserAuthToken. rewrite Hcookie, Hfind. cbn [negb].
  assert (Htruthy : truthy (before ++ "auth-token=" ++ v ++ h) = true)
    by (destruct Hbefore as [-> | ->]; reflexivity).
  rewrite Htruthy, Hnth. cbn [negb].
  apply truthy_true_iff in Hv. rewrite Hv, Htrim. cbn [negb orb].
  apply truthy_true_iff in Hv. apply String.eqb_neq in Hv. rewrite Hv.
  reflexivity.
Qed.

Lemma auth_cookie_found (before v tail : string) :
  (before = "" \/ before = " ") ->
  Storage.all_chars Storage.is_unreserved v = true ->
  is_auth_cookie
    (before ++ "auth-token=" ++ v ++ hd "" (Storage.split semicolon tail)) = true.
Proof.
  intros Hbefore Hchars. unfold is_auth_cookie.
  pose proof (unreserved_no_ws v Hchars) as Hnows.
  destruct Hbefore as [-> | ->].
  - match goal with
    | |- context [ "" ++ ?x ] => change ("" ++ x) with x
    end.
    rewrite (proj2 (trim_auth_cookie v _ Hnows)). apply startsWith_append.
  - match goal with
    | |- context [ " " ++ "auth-token=" ++ ?x ] =>
        change (" " ++ "auth-token=" ++ x) with (" auth-token=" ++ x)
    end.
    rewrite (proj1 (trim_auth_cookie v _ Hnows)). apply startsWith_append.
Qed.

(** X14. [getUserAuthToken] returns the text between [auth-token=] and the next
    [;] or [=] (or the end), for a value made of unreserved characters: as
    the first cookie, and as a later cookie [; auth-token=...] when no cookie
    before it passes the test. A value with a [=] in it is cut there. *)
Theorem getUserAuthToken_returns_value (pre v tail : string) :
  v <> "" ->
  Storage.all_chars Storage.is_unreserved v = true ->
  value_ends tail = true ->
  getUserAuthToken (Some ("auth-token=" ++ v ++ tail)) = ([], inr v)
  /\ (find is_auth_cookie (Storage.split semicolon pre) = None ->
      getUserAuthToken (Some (pre ++ "; auth-token=" ++ v ++ tail)) = ([], inr v)).
Proof.
  intros Hv Hchars Htail.
  assert (Hsemi : Storage.contains semicolon v = false)
    by (apply unreserved_excludes; [exact Hchars|reflexivity]).
  pose proof (value_ends_head tail Htail) as Hh.
  split.
  - apply (auth_cookie_token _ "" v (hd "" (Storage.split semicolon tail))
             (tl (Storage.split semicolon tail)));
      [left; reflexivity|exact Hv|exact Hchars|exact Hh|].
    rewrite <- (Storage.append_assoc "auth-token=" v tail).
    rewrite split_head_append.
    + cbn [find]. rewrite Storage.append_assoc.
      pose proof (auth_cookie_found "" v tail (or_introl eq_refl) Hchars) as Hfound.
      change (is_auth_cookie
                ("auth-token=" ++ v ++ hd "" (Storage.split semicolon tail)) = true)
        in Hfound.
      rewrite Hfound. reflexivity.
    + rewrite Storage.contains_app, Hsemi. reflexivity.
  - intros Hpre.
    apply (auth_cookie_token _ " " v (hd "" (Storage.split semicolon tail))
             (tl (Storage.split semicolon tail)));
      [right; reflexivity|exact Hv|exact Hchars|exact Hh|].
    change (pre ++ "; auth-token=" ++ v ++ tail)
      with (pre ++ String semicolon (" auth-token=" ++ v ++ tail)).
    rewrite split_append, (find_app_none _ _ _ Hpre).
    rewrite <- (Storage.append_assoc " auth-token=" v tail).
    rewrite split_head_append.
    + cbn [find]. rewrite Storage.append_assoc.
      pose proof (auth_cookie_found " " v tail (or_intror eq_refl) Hchars) as Hfound.
      change (is_auth_cookie
                (" auth-token=" ++ v ++ hd "" (Storage.split semicolon tail)) = true)
        in Hfound.
      rewrite Hfound. reflexivity.
    + rewrite Storage.contains_app, Hsemi. reflexivity.
Qed.

Lemma getUserAuthToken_returns_value_witness :
  getUserAuthToken (Some "theme=dark; auth-token=abc.def; lang=en")
  = ([], inr "abc.def")
  /\ getUserAuthToken (Some "auth-token=YWJj=") = ([], inr "YWJj").
Proof.
  split.
  - apply (proj2 (getUserAuthToken_returns_value "theme=dark" "abc.def" "; lang=en"
                    ltac:(discriminate) eq_refl eq_refl)).
    reflexivity.
  - apply (proj1 (getUserAuthToken_returns_value "" "YWJj" "="
                    ltac:(discriminate) eq_refl eq_refl)).
Defined.

End Utils.

(** ** Realtime client ([src/internal/realtime.ts]) *)

Module Realtime.
Import Js.

(** A value of type [unknown]: carried along, never inspected. *)
Definition JsValue : Type := string.

Inductive Operation : Type := INSERT | UPDATE | DELETE.

Record DatabaseChangeEvent : Type := mkDbChange {
  table : string;
  operation : Operation;
  record : JsValue;
  old_record : option JsValue;
  timestamp : string
}.

(** [online_at] and the other keys a user published. *)
Record PresenceUser : Type := mkPresenceUser {
  online_at : string;
  other_keys : list (string * JsValue)
}.

Record PresenceEntry : Type := mkEntry { metas : list PresenceUser }.

(** [Record<string, {metas}>]: the properties in the order of
    [Object.entries]. *)
Definition PresenceState : Type := list (string * PresenceEntry).

Record PresenceDiff : Type := mkDiff {
  joins : PresenceState;
  leaves : PresenceState
}.

(** *** The socket library

    The calls the client makes on a [Socket] and its [Channel]. *)
Inductive Call : Type :=
| NewSocket (socketUrl : string) (params : list (string * string))
| SocketConnect
| SocketChannel (topic : string)
| ChannelJoin
| ChannelReceive (status : string)
| ChannelOn (event : string)
| ChannelPush (event : string) (payload : JsValue) (* push(event, {payload}) *)
| ChannelLeave
| SocketDisconnect.

(** The library as the client sees it: a state for one socket and its
    channel, what a call does to it (it may throw), and whether the socket's
    connection is open. *)
Class Phoenix (Lib : Type) : Type := {
  phx_call : Call -> Lib -> Thrown + Lib;
  socket_open : Lib -> bool
}.

(** Everything the client does that can be seen from outside. *)
Inductive Event : Type :=
| EvCall (c : Call)
| EvConsoleLog (msg : string)
| EvConsoleError (msg : string) (detail : JsValue)
| EvOnConnect
| EvOnConnectError (error : JsValue)
| EvOnDbChange (payload : DatabaseChangeEvent)
| EvOnReceiveMessage (payload : JsValue)
| EvOnReceivePresenceState (presenceState : PresenceState)
| EvOnPresenceJoin (userId : string) (presence : PresenceUser)
| EvOnPresenceLeave (userId : string) (presence : PresenceUser).

(** A callback of the caller, seen through what it does to the client's
    control flow: it returns ([None]) or it throws. *)
Definition Callback (A : Type) : Type := A -> option Thrown.

Record World (Lib : Type) : Type := mkWorld {
  lib : Lib;
  log : list Event
}.
Arguments mkWorld {Lib} _ _.
Arguments lib {Lib} _.
Arguments log {Lib} _.

(** A computation over the library state and the log, which may throw. *)
Definition RT (Lib A : Type) : Type := World Lib -> (Thrown + A) * World Lib.

Section Monad.
Context {Lib : Type} `{Phoenix Lib}.

Definition ret {A} (a : A) : RT Lib A := fun w => (inr a, w).

Definition throw {A} (t : Thrown) : RT Lib A := fun w => (inl t, w).

Definition bind {A B} (m : RT Lib A) (k : A -> RT Lib B) : RT Lib B :=
  fun w =>
    match m w with
    | (inl t, w') => (inl t, w')
    | (inr a, w') => k a w'
    end.

Definition emit (e : Event) : RT Lib unit :=
  fun w => (inr tt, mkWorld (lib w) (log w ++ [e])).

(** A call of the library: logged, then answered by the library. *)
Definition call (c : Call) : RT Lib unit :=
  fun w =>
    match phx_call c (lib w) with
    | inl t => (inl t, mkWorld (lib w) (log w ++ [EvCall c]))
    | inr l' => (inr tt, mkWorld l' (log w ++ [EvCall c]))
    end.

(** [cb?.(a)]: nothing when the callback is absent. *)
Definition invoke {A} (e : Event) (cb : option (Callback A)) (a : A)
  : RT Lib unit :=
  match cb with
  | None => ret tt
  | Some f =>
      bind (emit e) (fun _ =>
        match f a with
        | None => ret tt
        | Some t => throw t
        end)
  end.

(** [xs.forEach(f)]: stops at the first [throw]. *)
Fixpoint forEach {A} (xs : list A) (f : A -> RT Lib unit) : RT Lib unit :=
  match xs with
  | [] => ret tt
  | x :: rest => bind (f x) (fun _ => forEach rest f)
  end.

(** **** How computations run *)

Lemma bind_returned {A B} (m : RT Lib A) (k : A -> RT Lib B) w a w1 :
  m w = (inr a, w1) -> bind m k w = k a w1.
Proof. intros Hm. unfold bind. rewrite Hm. reflexivity. Qed.

Lemma bind_thrown {A B} (m : RT Lib A) (k : A -> RT Lib B) w t w1 :
  m w = (inl t, w1) -> bind m k w = (inl t, w1).
Proof. intros Hm. unfold bind. rewrite Hm. reflexivity. Qed.

Lemma bind_returns_inv {A B} (m : RT Lib A) (k : A -> RT Lib B) w b w2 :
  bind m k w = (inr b, w2) ->
  exists a w1, m w = (inr a, w1) /\ k a w1 = (inr b, w2).
Proof.
  unfold bind. destruct (m w) as [[t|a] w1]; intros Hrun; [discriminate|].
  exists a, w1. split; [reflexivity|exact Hrun].
Qed.

Lemma invoke_absent {A} (e : Event) (a : A) w :
  invoke e None a w = (inr tt, w).
Proof. reflexivity. Qed.

Lemma invoke_returns {A} (e : Event) (f : Callback A) (a : A) w :
  f a = None ->
  invoke e (Some f) a w = (inr tt, mkWorld (lib w) (log w ++ [e])).
Proof. intros Hf. unfold invoke, bind, emit, ret. simpl. rewrite Hf. reflexivity. Qed.

Lemma invoke_throws {A} (e : Event) (f : Callback A) (a : A) t w :
  f a = Some t ->
  invoke e (Some f) a w = (inl t, mkWorld (lib w) (log w ++ [e])).
Proof. intros Hf. unfold invoke, bind, emit, throw. simpl. rewrite Hf. reflexivity. Qed.

Lemma call_returns (c : Call) w l' :
  phx_call c (lib w) = inr l' ->
  call c w = (inr tt, mkWorld l' (log w ++ [EvCall c])).
Proof. intros Hc. unfold call. rewrite Hc. reflexivity. Qed.

(** **** What a computation may add to the log

    [logs_within m allowed]: whatever [m] does, returning or throwing, it
    leaves the library state alone and adds to the log only events of
    [allowed]. *)
Definition logs_within {A} (m : RT Lib A) (allowed : list Event) : Prop :=
  forall w, exists new,
    snd (m w) = mkWorld (lib w) (log w ++ new) /\ incl new allowed.

Lemma ret_logs_within {A} (a : A) (allowed : list Event) :
  logs_within (ret a) allowed.
Proof.
  intros w. exists []. simpl. rewrite app_nil_r. destruct w; simpl.
  split; [reflexivity|apply incl_nil_l].
Qed.

Lemma invoke_logs_within {A} (e : Event) (cb : option (Callback A)) (a : A) :
  logs_within (invoke e cb a) [e].
Proof.
  destruct cb as [f|]; [|apply ret_logs_within].
  intros w. exists [e]. split; [|apply incl_refl].
  destruct (f a) as [t|] eqn:Hf.
  - rewrite (invoke_throws e f a t w Hf). reflexivity.
  - rewrite (invoke_returns e f a w Hf). reflexivity.
Qed.

Lemma bind_logs_within {A B} (m : RT Lib A) (k : A -> RT Lib B)
  (l1 l2 : list Event) :
  logs_within m l1 -> (forall a, logs_within (k a) l2) ->
  logs_within (bind m k) (l1 ++ l2).
Proof.
  intros Hm Hk w. destruct (Hm w) as [new1 [Hw1 Hin1]].
  unfold bind. destruct (m w) as [[t|a] w1]; simpl in Hw1; subst w1.
  - exists new1. split; [reflexivity|]. apply incl_appl. exact Hin1.
  - destruct (Hk a (mkWorld (lib w) (log w ++ new1))) as [new2 [Hw2 Hin2]].
    exists (new1 ++ new2)%list. simpl in Hw2. rewrite Hw2, app_assoc.
    split; [reflexivity|]. apply incl_app; [apply incl_appl|apply incl_appr]; assumption.
Qed.

Lemma forEach_logs_within {A} (f : A -> RT Lib unit) (g : A -> list Event)
  (xs : list A) :
  (forall x, logs_within (f x) (g x)) ->
  logs_within (forEach xs f) (flat_map g xs).
Proof.
  intros Hf. induction xs as [|x rest IH]; simpl.
  - apply ret_logs_within.
  - apply bind_logs_within; [apply Hf|intros _; exact IH].
Qed.

End Monad.

Declare Scope rt_scope.
Delimit Scope rt_scope with rt.
Notation "x <- m ;; k" := (bind m (fun x => k))
  (at level 61, m at next level, right associativity) : rt_scope.
Notation "m ;;; k" := (bind m (fun _ => k))
  (at level 61, right associativity) : rt_scope.
Local Open Scope rt_scope.

(** *** Opening the socket *)

Record RealtimeClientConfiguration : Type := mkRealtimeCfg {
  projectId : string;
  realtimeUrl : string;
  projectToken : option string;
  authToken : option string;
  useSecureWebsocketConnection : bool
}.

(** [s.replace(/^https?:\/\//, "")] *)
Definition strip_scheme (s : string) : string :=
  if String.prefix "http://" s then String.substring 7 (String.length s - 7) s
  else if String.prefix "https://" s then String.substring 8 (String.length s - 8) s
  else s.

(** [a ?? d] *)
Definition nullish_default (a : option string) (d : string) : string :=
  match a with
  | Some s => s
  | None => d
  end.

Section Socket.
Context {Lib : Type} `{Phoenix Lib}.

Variable cfg : RealtimeClientConfiguration.

(** What [getAuthTokenFromCookie()] gives in the browser at hand: the token
    of the [auth-token] cookie, [null], or an exception of
    [decodeURIComponent]. *)
Variable getAuthTokenFromCookie : Thrown + option string.

Definition createWebsocket : RT Lib unit :=
  let wsUrl := strip_scheme (realtimeUrl cfg) in
  let protocol := if useSecureWebsocketConnection cfg then "wss" else "ws" in
  let socketUrl := protocol ++ "://" ++ wsUrl ++ "/ws" in
  let params := [("project_token", nullish_default (projectToken cfg) "")] in
  currentAuthToken <-
    (if truthy_opt (authToken cfg) then ret (authToken cfg)
     else match getAuthTokenFromCookie with
          | inl t => throw t
          | inr tok => ret tok
          end) ;;
  match currentAuthToken with
  | Some tok =>
      if truthy tok then
        emit (EvConsoleLog "✅ (dabblebase): Connecting to realtime with auth token") ;;;
        call (NewSocket socketUrl (params ++ [("auth_token", tok)]))
      else
        emit (EvConsoleLog "⚠️ (dabblebase): Connecting to realtime without auth token") ;;;
        call (NewSocket socketUrl params)
  | None =>
      emit (EvConsoleLog "⚠️ (dabblebase): Connecting to realtime without auth token") ;;;
      call (NewSocket socketUrl params)
  end.

(** The [disconnect] of every connection: leave the channel, then close the
    socket. *)
Definition leave_then_disconnect : RT Lib unit :=
  call ChannelLeave ;;;
  call SocketDisconnect.

End Socket.

(** *** Database changes *)

Module DbChanges.

Record Options : Type := mkOptions {
  onConnect : option (Callback unit);
  onConnectError : option (Callback JsValue);
  onDbChange : option (Callback DatabaseChangeEvent)
}.

(** The channel of the connection: its topic, the continuations given to
    [join().receive] and the handler given to [on]. *)
Record Channel (Lib : Type) : Type := mkChannel {
  topic : string;
  receive_ok : RT Lib unit;
  receive_error : JsValue -> RT Lib unit;
  pg_change : DatabaseChangeEvent -> RT Lib unit
}.
Arguments mkChannel {Lib} _ _ _ _.
Arguments topic {Lib} _.
Arguments receive_ok {Lib} _.
Arguments receive_error {Lib} _.
Arguments pg_change {Lib} _.

Record DbChangesSocketConnection (Lib : Type) : Type := mkConnection {
  disconnect : RT Lib unit;
  channel : Channel Lib
}.
Arguments mkConnection {Lib} _ _.
Arguments disconnect {Lib} _.
Arguments channel {Lib} _.

Definition join_failed : JsError :=
  Error "❌ (dabblebase): Unable to connect to the db changes websocket channel.".

Section Listen.
Context {Lib : Type} `{Phoenix Lib}.
Variable cfg : RealtimeClientConfiguration.
Variable getAuthTokenFromCookie : Thrown + option string.
Variable opts : Options.

(** The continuation of [.receive("ok", ...)]. *)
Definition on_join_ok : RT Lib unit :=
  emit (EvConsoleLog "✅ (dabblebase): Joined database channel successfully") ;;;
  invoke EvOnConnect (onConnect opts) tt.

(** The continuation of [.receive("error", ...)]. *)
Definition on_join_error (error : JsValue) : RT Lib unit :=
  emit (EvConsoleError "❌ (dabblebase): Failed to join database channel:" error) ;;;
  invoke (EvOnConnectError error) (onConnectError opts) error ;;;
  throw (ThrowError join_failed).

(** The handler of [channel.on("pg_change", ...)]. *)
Definition on_pg_change (payload : DatabaseChangeEvent) : RT Lib unit :=
  invoke (EvOnDbChange payload) (onDbChange opts) payload.

Definition listenToDbChanges : RT Lib (DbChangesSocketConnection Lib) :=
  createWebsocket cfg getAuthTokenFromCookie ;;;
  call SocketConnect ;;;
  let channel :=
    mkChannel ("db:" ++ projectId cfg) on_join_ok on_join_error on_pg_change in
  call (SocketChannel (topic channel)) ;;;
  call ChannelJoin ;;;
  call (ChannelReceive "ok") ;;;
  call (ChannelReceive "error") ;;;
  call (ChannelOn "pg_change") ;;;
  ret (mkConnection leave_then_disconnect channel).

End Listen.

End DbChanges.

(** *** Broadcasts *)

Module Broadcasts.

Record Options : Type := mkOptions {
  channelName : string;
  onConnect : option (Callback unit);
  onConnectError : option (Callback JsValue);
  onReceiveMessage : option (Callback JsValue)
}.

Record Channel (Lib : Type) : Type := mkChannel {
  topic : string;
  receive_ok : RT Lib unit;
  receive_error : JsValue -> RT Lib unit;
  message : JsValue -> RT Lib unit
}.
Arguments mkChannel {Lib} _ _ _ _.
Arguments topic {Lib} _.
Arguments receive_ok {Lib} _.
Arguments receive_error {Lib} _.
Arguments message {Lib} _.

Record BroadcastsSocketConnection (Lib : Type) : Type := mkConnection {
  broadcast : JsValue -> RT Lib unit;
  disconnect : RT Lib unit;
  channel : Channel Lib
}.
Arguments mkConnection {Lib} _ _ _.
Arguments broadcast {Lib} _.
Arguments disconnect {Lib} _.
Arguments channel {Lib} _.

Definition join_failed (name : string) : JsError :=
  Error ("❌ (dabblebase): Unable to connect to the broadcast websocket channel "
         ++ name ++ ".").

Section Listen.
Context {Lib : Type} `{Phoenix Lib}.
Variable cfg : RealtimeClientConfiguration.
Variable getAuthTokenFromCookie : Thrown + option string.
Variable opts : Options.

Definition on_join_ok : RT Lib unit :=
  emit (EvConsoleLog ("✅ (dabblebase): Joined broadcast channel '"
                      ++ channelName opts ++ "' successfully")) ;;;
  invoke EvOnConnect (onConnect opts) tt.

Definition on_join_error (error : JsValue) : RT Lib unit :=
  emit (EvConsoleError ("❌ (dabblebase): Failed to join broadcast channel '"
                        ++ channelName opts ++ "':") error) ;;;
  invoke (EvOnConnectError error) (onConnectError opts) error ;;;
  throw (ThrowError (join_failed (channelName opts))).

(** The handler of [channel.on("message", ...)]. *)
Definition on_message (payload : JsValue) : RT Lib unit :=
  invoke (EvOnReceiveMessage payload) (onReceiveMessage opts) payload.

Definition listenForBroadcasts : RT Lib (BroadcastsSocketConnection Lib) :=
  createWebsocket cfg getAuthTokenFromCookie ;;;
  call SocketConnect ;;;
  let channel :=
    mkChannel ("broadcast:" ++ projectId cfg ++ ":" ++ channelName opts)
      on_join_ok on_join_error on_message in
  call (SocketChannel (topic channel)) ;;;
  call ChannelJoin ;;;
  call (ChannelReceive "ok") ;;;
  call (ChannelReceive "error") ;;;
  call (ChannelOn "message") ;;;
  ret (mkConnection
         (fun payload => call (ChannelPush "message" payload))
         leave_then_disconnect
         channel).

End Listen.

End Broadcasts.

(** *** Presence *)

Module Presence.

Record Options : Type := mkOptions {
  onConnect : option (Callback unit);
  onConnectError : option (Callback JsValue);
  onReceivePresenceState : option (Callback PresenceState);
  onPresenceJoin : option (Callback (string * PresenceUser));
  onPresenceLeave : option (Callback (string * PresenceUser))
}.

Record Channel (Lib : Type) : Type := mkChannel {
  topic : string;
  receive_ok : RT Lib unit;
  receive_error : JsValue -> RT Lib unit;
  presence_state : PresenceState -> RT Lib unit;
  presence_diff : PresenceDiff -> RT Lib unit
}.
Arguments mkChannel {Lib} _ _ _ _ _.
Arguments topic {Lib} _.
Arguments receive_ok {Lib} _.
Arguments receive_error {Lib} _.
Arguments presence_state {Lib} _.
Arguments presence_diff {Lib} _.

Record PresenceSocketConnection (Lib : Type) : Type := mkConnection {
  disconnect : RT Lib unit;
  channel : Channel Lib
}.
Arguments mkConnection {Lib} _ _.
Arguments disconnect {Lib} _.
Arguments channel {Lib} _.

Definition join_failed : JsError :=
  Error "❌ (dabblebase): Unable to connect to the presence websocket channel.".

Section Listen.
Context {Lib : Type} `{Phoenix Lib}.
Variable cfg : RealtimeClientConfiguration.
Variable getAuthTokenFromCookie : Thrown + option string.
Variable opts : Options.

Definition on_join_ok : RT Lib unit :=
  emit (EvConsoleLog "✅ (dabblebase): Joined presence channel successfully") ;;;
  invoke EvOnConnect (onConnect opts) tt.

Definition on_join_error (error : JsValue) : RT Lib unit :=
  emit (EvConsoleError "❌ (dabblebase): Failed to join presence channel:" error) ;;;
  invoke (EvOnConnectError error) (onConnectError opts) error ;;;
  throw (ThrowError join_failed).

(** The handler of [channel.on("presence_state", ...)]. *)
Definition on_presence_state (state : PresenceState) : RT Lib unit :=
  invoke (EvOnReceivePresenceState state) (onReceivePresenceState opts) state.

(** One step of the [forEach] over [diff.joins]: the callback gets
    [metas[0]] when [metas.length > 0]. *)
Definition handle_join (entry : string * PresenceEntry) : RT Lib unit :=
  let (userId, e) := entry in
  match metas e with
  | first :: _ => invoke (EvOnPresenceJoin userId first) (onPresenceJoin opts) (userId, first)
  | [] => ret tt
  end.

(** One step of the [forEach] over [diff.leaves]. *)
Definition handle_leave (entry : string * PresenceEntry) : RT Lib unit :=
  let (userId, e) := entry in
  match metas e with
  | first :: _ => invoke (EvOnPresenceLeave userId first) (onPresenceLeave opts) (userId, first)
  | [] => ret tt
  end.

(** The handler of [channel.on("presence_diff", ...)]. *)
Definition on_presence_diff (diff : PresenceDiff) : RT Lib unit :=
  forEach (joins diff) handle_join ;;;
  forEach (leaves diff) handle_leave ;;;
  let combinedState := joins diff in
  invoke (EvOnReceivePresenceState combinedState)
         (onReceivePresenceState opts) combinedState.

Definition listenToPresenceChanges : RT Lib (PresenceSocketConnection Lib) :=
  createWebsocket cfg getAuthTokenFromCookie ;;;
  call SocketConnect ;;;
  let channel :=
    mkChannel ("presence:" ++ projectId cfg)
      on_join_ok on_join_error on_presence_state on_presence_diff in
  call (SocketChannel (topic channel)) ;;;
  call ChannelJoin ;;;
  call (ChannelReceive "ok") ;;;
  call (ChannelReceive "error") ;;;
  call (ChannelOn "presence_state") ;;;
  call (ChannelOn "presence_diff") ;;;
  ret (mkConnection leave_then_disconnect channel).

End Listen.

(** *** Properties of the presence handlers *)

(** The callback event of an entry of a presence state: one for the first
    metadata record, none when the list is empty. *)
Definition first_meta_event (mk : string -> PresenceUser -> Event)
  (entry : string * PresenceEntry) : list Event :=
  match metas (snd entry) with
  | first :: _ => [mk (fst entry) first]
  | [] => []
  end.

Definition join_calls (state : PresenceState) : list Event :=
  flat_map (first_meta_event EvOnPresenceJoin) state.

Definition leave_calls (state : PresenceState) : list Event :=
  flat_map (first_meta_event EvOnPresenceLeave) state.

(** [e] is a call of [onPresenceJoin] for the user [u]. *)
Definition is_join_of (u : string) (e : Event) : bool :=
  match e with
  | EvOnPresenceJoin v _ => String.eqb v u
  | _ => false
  end.

(** [e] is a call of [onPresenceLeave] for the user [u]. *)
Definition is_leave_of (u : string) (e : Event) : bool :=
  match e with
  | EvOnPresenceLeave v _ => String.eqb v u
  | _ => false
  end.

(** The user identifiers of a state, which a JavaScript object keeps
    distinct. *)
Definition userIds (state : PresenceState) : list string := map fst state.

Section Counting.

Variable mk : string -> PresenceUser -> Event.
Variable sel : string -> Event -> bool.
Hypothesis sel_mk : forall u v p, sel u (mk v p) = String.eqb v u.

Lemma no_calls_for_absent_user (u : string) (state : PresenceState) :
  ~ In u (userIds state) ->
  filter (sel u) (flat_map (first_meta_event mk) state) = [].
Proof.
  induction state as [|[v e] rest IH]; simpl; [reflexivity|].
  intros Hnot. rewrite filter_app, IH by tauto.
  unfold first_meta_event. simpl. destruct (metas e) as [|first more]; [reflexivity|].
  simpl. rewrite sel_mk.
  destruct (String.eqb_spec v u) as [->|Hne]; [|reflexivity].
  exfalso. apply Hnot. left. reflexivity.
Qed.

Lemma one_call_per_user (u : string) (e : PresenceEntry)
  (first : PresenceUser) (more : list PresenceUser) (state : PresenceState) :
  NoDup (userIds state) -> In (u, e) state -> metas e = first :: more ->
  filter (sel u) (flat_map (first_meta_event mk) state) = [mk u first].
Proof.
  induction state as [|[v e'] rest IH]; simpl; [tauto|].
  intros Hnd Hin Hmetas. inversion Hnd as [|? ? Hnotin Hnd']; subst.
  rewrite filter_app. destruct Hin as [Heq|Hin].
  - injection Heq as -> ->.
    rewrite (no_calls_for_absent_user u rest Hnotin).
    unfold first_meta_event. simpl. rewrite Hmetas. simpl.
    rewrite sel_mk, String.eqb_refl. reflexivity.
  - rewrite (IH Hnd' Hin Hmetas).
    assert (Hne : v <> u).
    { intros ->. apply Hnotin. apply (in_map fst) in Hin. exact Hin. }
    unfold first_meta_event. simpl. destruct (metas e') as [|first' more']; [reflexivity|].
    simpl. rewrite sel_mk. apply String.eqb_neq in Hne. rewrite Hne. reflexivity.
Qed.

Lemma no_call_for_empty_metas (u : string) (state : PresenceState) :
  (forall e, In (u, e) state -> metas e = []) ->
  forall p, ~ In (mk u p) (flat_map (first_meta_event mk) state).
Proof.
  intros Hempty p Hin. apply in_flat_map in Hin as [[v e] [Hentry Hev]].
  unfold first_meta_event in Hev. simpl in Hev.
  destruct (metas e) as [|first more] eqn:Hmetas; [exact Hev|].
  destruct Hev as [Heq|[]].
  assert (Hsel : sel u (mk v first) = sel u (mk u p)) by (rewrite Heq; reflexivity).
  rewrite !sel_mk, String.eqb_refl in Hsel. apply String.eqb_eq in Hsel. subst v.
  rewrite (Hempty e Hentry) in Hmetas. discriminate.
Qed.

End Counting.

Lemma is_join_of_spec u v p : is_join_of u (EvOnPresenceJoin v p) = String.eqb v u.
Proof. reflexivity. Qed.

Lemma is_leave_of_spec u v p : is_leave_of u (EvOnPresenceLeave v p) = String.eqb v u.
Proof. reflexivity. Qed.

Section Dispatch.
Context {Lib : Type} `{Phoenix Lib}.
Variable opts : Options.

Lemma handle_join_logs_within (entry : string * PresenceEntry) :
  logs_within (Lib := Lib) (handle_join opts entry) (first_meta_event EvOnPresenceJoin entry).
Proof.
  destruct entry as [userId e]. unfold handle_join, first_meta_event. simpl.
  destruct (metas e) as [|first more];
    [apply ret_logs_within|apply invoke_logs_within].
Qed.

Lemma handle_leave_logs_within (entry : string * PresenceEntry) :
  logs_within (Lib := Lib) (handle_leave opts entry) (first_meta_event EvOnPresenceLeave entry).
Proof.
  destruct entry as [userId e]. unfold handle_leave, first_meta_event. simpl.
  destruct (metas e) as [|first more];
    [apply ret_logs_within|apply invoke_logs_within].
Qed.

(** Whatever the callbacks do, the handler adds to the log only callback
    events of the diff at hand. *)
Lemma on_presence_diff_logs_within (diff : PresenceDiff) :
  logs_within (Lib := Lib) (on_presence_diff opts diff)
    (join_calls (joins diff)
       ++ leave_calls (leaves diff)
       ++ [EvOnReceivePresenceState (joins diff)]).
Proof.
  unfold on_presence_diff.
  apply bind_logs_within;
    [apply forEach_logs_within; exact handle_join_logs_within|intros _].
  apply bind_logs_within;
    [apply forEach_logs_within; exact handle_leave_logs_within|intros _].
  apply invoke_logs_within.
Qed.

Lemma forEach_handle_join_returns (onJoin : Callback (string * PresenceUser))
  (state : PresenceState) :
  onPresenceJoin opts = Some onJoin -> (forall a, onJoin a = None) ->
  forall w : World Lib,
    forEach state (handle_join opts) w
    = (inr tt, mkWorld (lib w) (log w ++ join_calls state)).
Proof.
  intros Hcb Hret. induction state as [|[userId e] rest IH]; intros w.
  - simpl. rewrite app_nil_r. destruct w; reflexivity.
  - cbn [forEach]. unfold join_calls. cbn [flat_map].
    unfold first_meta_event at 1. cbn [fst snd].
    assert (Hstep : handle_join opts (userId, e) w
                    = (inr tt, mkWorld (lib w)
                         (log w ++ match metas e with
                                   | first :: _ => [EvOnPresenceJoin userId first]
                                   | [] => []
                                   end))).
    { unfold handle_join. destruct (metas e) as [|first more].
      - rewrite app_nil_r. destruct w; reflexivity.
      - rewrite Hcb. apply invoke_returns. apply Hret. }
    rewrite (bind_returned _ _ _ _ _ Hstep), IH. simpl.
    rewrite app_assoc. reflexivity.
Qed.

Lemma forEach_handle_leave_returns (onLeave : Callback (string * PresenceUser))
  (state : PresenceState) :
  onPresenceLeave opts = Some onLeave -> (forall a, onLeave a = None) ->
  forall w : World Lib,
    forEach state (handle_leave opts) w
    = (inr tt, mkWorld (lib w) (log w ++ leave_calls state)).
Proof.
  intros Hcb Hret. induction state as [|[userId e] rest IH]; intros w.
  - simpl. rewrite app_nil_r. destruct w; reflexivity.
  - cbn [forEach]. unfold leave_calls. cbn [flat_map].
    unfold first_meta_event at 1. cbn [fst snd].
    assert (Hstep : handle_leave opts (userId, e) w
                    = (inr tt, mkWorld (lib w)
                         (log w ++ match metas e with
                                   | first :: _ => [EvOnPresenceLeave userId first]
                                   | [] => []
                                   end))).
    { unfold handle_leave. destruct (metas e) as [|first more].
      - rewrite app_nil_r. destruct w; reflexivity.
      - rewrite Hcb. apply invoke_returns. apply Hret. }
    rewrite (bind_returned _ _ _ _ _ Hstep), IH. simpl.
    rewrite app_assoc. reflexivity.
Qed.

(** The run of the diff handler when the three callbacks are supplied and
    return. *)
Lemma on_presence_diff_returns
  (onJoin onLeave : Callback (string * PresenceUser))
  (onState : Callback PresenceState) (diff : PresenceDiff) (w : World Lib) :
  onPresenceJoin opts = Some onJoin ->
  onPresenceLeave opts = Some onLeave ->
  onReceivePresenceState opts = Some onState ->
  (forall a, onJoin a = None) ->
  (forall a, onLeave a = None) ->
  (forall s, onState s = None) ->
  on_presence_diff opts diff w
  = (inr tt,
     mkWorld (lib w)
       (log w ++ join_calls (joins diff)
              ++ leave_calls (leaves diff)
              ++ [EvOnReceivePresenceState (joins diff)])).
Proof.
  intros HJ HL HS HrJ HrL HrS. unfold on_presence_diff.
  rewrite (bind_returned _ _ _ _ _
             (forEach_handle_join_returns onJoin (joins diff) HJ HrJ w)).
  rewrite (bind_returned _ _ _ _ _
             (forEach_handle_leave_returns onLeave (leaves diff) HL HrL _)).
  rewrite HS, (invoke_returns _ onState _ _ (HrS _)). simpl.
  rewrite <- !app_assoc. reflexivity.
Qed.

(** C1, as the code has it. With the three callbacks supplied and
    returning, the handler of a presence diff calls [onPresenceJoin] for the
    users of [diff.joins] whose metadata list is not empty, in the order of
    the entries, each once and with the first metadata record; then
    [onPresenceLeave] in the same way for [diff.leaves]; then
    [onReceivePresenceState] with [diff.joins] itself. The snapshot is
    [diff.joins] whatever state was received before, so a user of an earlier
    state who is not in this diff is not in it. *)
Theorem presence_diff_dispatch
  (onJoin onLeave : Callback (string * PresenceUser))
  (onState : Callback PresenceState) (diff : PresenceDiff) (w : World Lib) :
  onPresenceJoin opts = Some onJoin ->
  onPresenceLeave opts = Some onLeave ->
  onReceivePresenceState opts = Some onState ->
  (forall a, onJoin a = None) ->
  (forall a, onLeave a = None) ->
  (forall s, onState s = None) ->
  on_presence_diff opts diff w
  = (inr tt,
     mkWorld (lib w)
       (log w ++ join_calls (joins diff)
              ++ leave_calls (leaves diff)
              ++ [EvOnReceivePresenceState (joins diff)]))
  /\ (forall u e first more,
        NoDup (userIds (joins diff)) -> In (u, e) (joins diff) ->
        metas e = first :: more ->
        filter (is_join_of u) (join_calls (joins diff))
        = [EvOnPresenceJoin u first])
  /\ (forall u e first more,
        NoDup (userIds (leaves diff)) -> In (u, e) (leaves diff) ->
        metas e = first :: more ->
        filter (is_leave_of u) (leave_calls (leaves diff))
        = [EvOnPresenceLeave u first])
  /\ (forall prior,
        (on_presence_state opts prior ;;; on_presence_diff opts diff) w
        = (inr tt,
           mkWorld (lib w)
             (log w ++ [EvOnReceivePresenceState prior]
                    ++ join_calls (joins diff)
                    ++ leave_calls (leaves diff)
                    ++ [EvOnReceivePresenceState (joins diff)]))).
Proof.
  intros HJ HL HS HrJ HrL HrS.
  split; [apply (on_presence_diff_returns onJoin onLeave onState); assumption|].
  split.
  { intros u e first more Hnd Hin Hmetas.
    apply (one_call_per_user EvOnPresenceJoin is_join_of is_join_of_spec
             u e first more); assumption. }
  split.
  { intros u e first more Hnd Hin Hmetas.
    apply (one_call_per_user EvOnPresenceLeave is_leave_of is_leave_of_spec
             u e first more); assumption. }
  intros prior.
  assert (Hstate : on_presence_state opts prior w
                   = (inr tt, mkWorld (lib w)
                                (log w ++ [EvOnReceivePresenceState prior]))).
  { unfold on_presence_state. rewrite HS. apply invoke_returns. apply HrS. }
  rewrite (bind_returned _ _ _ _ _ Hstate).
  rewrite (on_presence_diff_returns onJoin onLeave onState diff _ HJ HL HS HrJ HrL HrS).
  simpl. rewrite <- !app_assoc. reflexivity.
Qed.

(** C9. Whatever callbacks are supplied and whatever they do, a presence
    diff adds to the log no [onPresenceJoin] call for a user whose metadata
    list in [diff.joins] is empty, and no [onPresenceLeave] call for a user
    whose metadata list in [diff.leaves] is empty. *)
Theorem presence_diff_empty_metas_no_callback
  (diff : PresenceDiff) (u : string) (w : World Lib) :
  exists new,
    snd (on_presence_diff opts diff w) = mkWorld (lib w) (log w ++ new)
    /\ ((forall e, In (u, e) (joins diff) -> metas e = []) ->
        forall p, ~ In (EvOnPresenceJoin u p) new)
    /\ ((forall e, In (u, e) (leaves diff) -> metas e = []) ->
        forall p, ~ In (EvOnPresenceLeave u p) new).
Proof.
  destruct (on_presence_diff_logs_within diff w) as [new [Hrun Hincl]].
  exists new. split; [exact Hrun|]. split.
  - intros Hempty p Hin. apply Hincl in Hin.
    apply in_app_or in Hin as [Hin|Hin].
    + revert Hin. apply (no_call_for_empty_metas EvOnPresenceJoin is_join_of
                           is_join_of_spec u (joins diff) Hempty).
    + apply in_app_or in Hin as [Hin|[Hin|[]]]; [|discriminate Hin].
      apply in_flat_map in Hin as [[v e] [_ Hev]].
      unfold first_meta_event in Hev. destruct (metas (snd (v, e))); [exact Hev|].
      destruct Hev as [Hev|[]]. discriminate Hev.
  - intros Hempty p Hin. apply Hincl in Hin.
    apply in_app_or in Hin as [Hin|Hin].
    + apply in_flat_map in Hin as [[v e] [_ Hev]].
      unfold first_meta_event in Hev. destruct (metas (snd (v, e))); [exact Hev|].
      destruct Hev as [Hev|[]]. discriminate Hev.
    + apply in_app_or in Hin as [Hin|[Hin|[]]]; [|discriminate Hin].
      revert Hin. apply (no_call_for_empty_metas EvOnPresenceLeave is_leave_of
                           is_leave_of_spec u (leaves diff) Hempty).
Qed.

End Dispatch.

End Presence.

(** *** The connection a listener returns *)

Section Connections.
Context {Lib : Type} `{Phoenix Lib}.
Variable cfg : RealtimeClientConfiguration.
Variable getAuthTokenFromCookie : Thrown + option string.

Ltac returned_connection Hrun :=
  repeat (apply bind_returns_inv in Hrun as (? & ? & _ & Hrun));
  cbv zeta in Hrun;
  repeat (apply bind_returns_inv in Hrun as (? & ? & _ & Hrun));
  unfold ret in Hrun; injection Hrun as <- _; reflexivity.

Lemma listenToDbChanges_returns opts w conn w' :
  DbChanges.listenToDbChanges cfg getAuthTokenFromCookie opts w = (inr conn, w') ->
  conn = DbChanges.mkConnection leave_then_disconnect
           (DbChanges.mkChannel ("db:" ++ projectId cfg)
              (DbChanges.on_join_ok opts)
              (DbChanges.on_join_error opts)
              (DbChanges.on_pg_change opts)).
Proof.
  intros Hrun. unfold DbChanges.listenToDbChanges in Hrun.
  returned_connection Hrun.
Qed.

Lemma listenForBroadcasts_returns opts w conn w' :
  Broadcasts.listenForBroadcasts cfg getAuthTokenFromCookie opts w = (inr conn, w') ->
  conn = Broadcasts.mkConnection
           (fun payload => call (ChannelPush "message" payload))
           leave_then_disconnect
           (Broadcasts.mkChannel
              ("broadcast:" ++ projectId cfg ++ ":" ++ Broadcasts.channelName opts)
              (Broadcasts.on_join_ok opts)
              (Broadcasts.on_join_error opts)
              (Broadcasts.on_message opts)).
Proof.
  intros Hrun. unfold Broadcasts.listenForBroadcasts in Hrun.
  returned_connection Hrun.
Qed.

Lemma listenToPresenceChanges_returns opts w conn w' :
  Presence.listenToPresenceChanges cfg getAuthTokenFromCookie opts w = (inr conn, w') ->
  conn = Presence.mkConnection leave_then_disconnect
           (Presence.mkChannel ("presence:" ++ projectId cfg)
              (Presence.on_join_ok opts)
              (Presence.on_join_error opts)
              (Presence.on_presence_state opts)
              (Presence.on_presence_diff opts)).
Proof.
  intros Hrun. unfold Presence.listenToPresenceChanges in Hrun.
  returned_connection Hrun.
Qed.

End Connections.

(** *** A failed join *)

Section JoinFailure.
Context {Lib : Type} `{Phoenix Lib}.
Variable cfg : RealtimeClientConfiguration.
Variable getAuthTokenFromCookie : Thrown + option string.

(** What a supplied [onConnectError] leaves to throw: the fatal error when it
    returns, its own exception when it throws. *)
Definition thrown_after (cb : Callback JsValue) (error : JsValue)
  (fatal : JsError) : Thrown :=
  match cb error with
  | Some t => t
  | None => ThrowError fatal
  end.

(** The run of an error continuation when [onConnectError] is supplied. *)
Lemma db_on_join_error_run o (cb : Callback JsValue) error (w : World Lib) :
  DbChanges.onConnectError o = Some cb ->
  DbChanges.on_join_error o error w
  = (inl (thrown_after cb error DbChanges.join_failed),
     mkWorld (lib w)
       (log w ++ [EvConsoleError
                    "❌ (dabblebase): Failed to join database channel:" error;
                  EvOnConnectError error])).
Proof.
  intros Hcb. unfold DbChanges.on_join_error, thrown_after. rewrite Hcb.
  unfold bind, emit, invoke, bind, emit, ret, throw. simpl.
  destruct (cb error); rewrite <- app_assoc; reflexivity.
Qed.

Lemma broadcast_on_join_error_run o (cb : Callback JsValue) error (w : World Lib) :
  Broadcasts.onConnectError o = Some cb ->
  Broadcasts.on_join_error o error w
  = (inl (thrown_after cb error (Broadcasts.join_failed (Broadcasts.channelName o))),
     mkWorld (lib w)
       (log w ++ [EvConsoleError
                    ("❌ (dabblebase): Failed to join broadcast channel '"
                     ++ Broadcasts.channelName o ++ "':") error;
                  EvOnConnectError error])).
Proof.
  intros Hcb. unfold Broadcasts.on_join_error, thrown_after. rewrite Hcb.
  unfold bind, emit, invoke, bind, emit, ret, throw. simpl.
  destruct (cb error); rewrite <- app_assoc; reflexivity.
Qed.

Lemma presence_on_join_error_run o (cb : Callback JsValue) error (w : World Lib) :
  Presence.onConnectError o = Some cb ->
  Presence.on_join_error o error w
  = (inl (thrown_after cb error Presence.join_failed),
     mkWorld (lib w)
       (log w ++ [EvConsoleError
                    "❌ (dabblebase): Failed to join presence channel:" error;
                  EvOnConnectError error])).
Proof.
  intros Hcb. unfold Presence.on_join_error, thrown_after. rewrite Hcb.
  unfold bind, emit, invoke, bind, emit, ret, throw. simpl.
  destruct (cb error); rewrite <- app_assoc; reflexivity.
Qed.

(** The three error continuations never return: they throw, the fatal error
    or what the callback threw. *)
Lemma on_join_error_never_returns (error : JsValue) (w : World Lib) :
  (forall o, exists t, fst (DbChanges.on_join_error o error w) = inl t)
  /\ (forall o, exists t, fst (Broadcasts.on_join_error o error w) = inl t)
  /\ (forall o, exists t, fst (Presence.on_join_error o error w) = inl t).
Proof.
  repeat split; intros o.
  - unfold DbChanges.on_join_error, bind, emit, invoke, bind, emit, ret, throw.
    destruct (DbChanges.onConnectError o) as [f|]; simpl;
      [destruct (f error) as [t|]|]; eexists; reflexivity.
  - unfold Broadcasts.on_join_error, bind, emit, invoke, bind, emit, ret, throw.
    destruct (Broadcasts.onConnectError o) as [f|]; simpl;
      [destruct (f error) as [t|]|]; eexists; reflexivity.
  - unfold Presence.on_join_error, bind, emit, invoke, bind, emit, ret, throw.
    destruct (Presence.onConnectError o) as [f|]; simpl;
      [destruct (f error) as [t|]|]; eexists; reflexivity.
Qed.

(** C5. For the connection that each of the three listeners returns, with
    any supplied [onConnectError] callback: when the join fails with [error],
    the error continuation of the channel logs the failure and calls
    [onConnectError(error)]; the call is in the log when the exception
    leaves. The outcome is always a throw, never a returned value: the fatal
    error of the join attempt when the callback returns, and the callback's
    own exception, in place of the fatal error, when the callback throws. *)
Theorem join_failure_reported_then_raised
  (cb : Callback JsValue) (error : JsValue) (w : World Lib) :
  (forall o w0 conn w1,
      DbChanges.onConnectError o = Some cb ->
      DbChanges.listenToDbChanges cfg getAuthTokenFromCookie o w0 = (inr conn, w1) ->
      DbChanges.receive_error (DbChanges.channel conn) error w
      = (inl (match cb error with
              | Some t => t
              | None => ThrowError DbChanges.join_failed
              end),
         mkWorld (lib w)
           (log w ++ [EvConsoleError
                        "❌ (dabblebase): Failed to join database channel:" error;
                      EvOnConnectError error])))
  /\ (forall o w0 conn w1,
        Broadcasts.onConnectError o = Some cb ->
        Broadcasts.listenForBroadcasts cfg getAuthTokenFromCookie o w0 = (inr conn, w1) ->
        Broadcasts.receive_error (Broadcasts.channel conn) error w
        = (inl (match cb error with
                | Some t => t
                | None =>
                    ThrowError (Broadcasts.join_failed (Broadcasts.channelName o))
                end),
           mkWorld (lib w)
             (log w ++ [EvConsoleError
                          ("❌ (dabblebase): Failed to join broadcast channel '"
                           ++ Broadcasts.channelName o ++ "':") error;
                        EvOnConnectError error])))
  /\ (forall o w0 conn w1,
        Presence.onConnectError o = Some cb ->
        Presence.listenToPresenceChanges cfg getAuthTokenFromCookie o w0 = (inr conn, w1) ->
        Presence.receive_error (Presence.channel conn) error w
        = (inl (match cb error with
                | Some t => t
                | None => ThrowError Presence.join_failed
                end),
           mkWorld (lib w)
             (log w ++ [EvConsoleError
                          "❌ (dabblebase): Failed to join presence channel:" error;
                        EvOnConnectError error]))).
Proof.
  repeat split; intros o w0 conn w1 Hcb Hrun.
  - rewrite (listenToDbChanges_returns cfg getAuthTokenFromCookie o w0 conn w1 Hrun).
    apply (db_on_join_error_run o cb). exact Hcb.
  - rewrite (listenForBroadcasts_returns cfg getAuthTokenFromCookie o w0 conn w1 Hrun).
    apply (broadcast_on_join_error_run o cb). exact Hcb.
  - rewrite (listenToPresenceChanges_returns cfg getAuthTokenFromCookie o w0 conn w1 Hrun).
    apply (presence_on_join_error_run o cb). exact Hcb.
Qed.

End JoinFailure.

(** *** Teardown *)

(** What [disconnect] relies on in the library: [channel.leave()] and
    [socket.disconnect()] return, leaving a channel does not touch the
    socket's connection, and after [socket.disconnect()] the connection is
    not open. *)
Class PhoenixTeardown (Lib : Type) `{Phoenix Lib} : Prop := {
  leave_returns : forall l, exists l', phx_call ChannelLeave l = inr l';
  disconnect_returns : forall l, exists l', phx_call SocketDisconnect l = inr l';
  leave_keeps_socket :
    forall l l', phx_call ChannelLeave l = inr l' -> socket_open l' = socket_open l;
  disconnect_closes :
    forall l l', phx_call SocketDisconnect l = inr l' -> socket_open l' = false
}.

Section Teardown.
Context {Lib : Type} `{Phoenix Lib}.

(** The number of times the connection goes from open to not open along
    the states the library went through. *)
Fixpoint closings (states : list Lib) : nat :=
  match states with
  | [] => 0
  | l :: rest =>
      match rest with
      | [] => 0
      | l' :: _ =>
          (if socket_open l && negb (socket_open l') then 1 else 0)
          + closings rest
      end
  end.

(** Two calls in a row of a [disconnect] [d]: each leaves the channel and
    then disconnects the socket, both return, the connection is not open
    after the first and after the second, and a connection that was open has
    been closed once. *)
Definition disconnects_twice (d : RT Lib unit) : Prop :=
  forall w, exists l1 l2 l3 l4,
    phx_call ChannelLeave (lib w) = inr l1
    /\ phx_call SocketDisconnect l1 = inr l2
    /\ phx_call ChannelLeave l2 = inr l3
    /\ phx_call SocketDisconnect l3 = inr l4
    /\ d w = (inr tt,
              mkWorld l2 (log w ++ [EvCall ChannelLeave; EvCall SocketDisconnect]))
    /\ (d ;;; d) w
       = (inr tt,
          mkWorld l4 (log w ++ [EvCall ChannelLeave; EvCall SocketDisconnect;
                                EvCall ChannelLeave; EvCall SocketDisconnect]))
    /\ socket_open l2 = false
    /\ socket_open l4 = false
    /\ (socket_open (lib w) = true -> closings [lib w; l1; l2; l3; l4] = 1).

Lemma leave_then_disconnect_returns (w : World Lib) (l1 l2 : Lib) :
  phx_call ChannelLeave (lib w) = inr l1 ->
  phx_call SocketDisconnect l1 = inr l2 ->
  leave_then_disconnect w
  = (inr tt, mkWorld l2 (log w ++ [EvCall ChannelLeave; EvCall SocketDisconnect])).
Proof.
  intros Hleave Hdisc. unfold leave_then_disconnect.
  rewrite (bind_returned _ _ _ _ _ (call_returns ChannelLeave w l1 Hleave)).
  rewrite (call_returns SocketDisconnect (mkWorld l1 _) l2 Hdisc). simpl.
  rewrite <- app_assoc. reflexivity.
Qed.

Lemma leave_then_disconnect_twice `{!PhoenixTeardown Lib} :
  disconnects_twice leave_then_disconnect.
Proof.
  intros w.
  destruct (leave_returns (lib w)) as [l1 H1].
  destruct (disconnect_returns l1) as [l2 H2].
  destruct (leave_returns l2) as [l3 H3].
  destruct (disconnect_returns l3) as [l4 H4].
  exists l1, l2, l3, l4.
  pose proof (leave_then_disconnect_returns w l1 l2 H1 H2) as Hfirst.
  pose proof (leave_keeps_socket _ _ H1) as Ho1.
  pose proof (disconnect_closes _ _ H2) as Ho2.
  pose proof (leave_keeps_socket _ _ H3) as Ho3.
  pose proof (disconnect_closes _ _ H4) as Ho4.
  repeat (split; [assumption|]).
  split.
  { rewrite (bind_returned _ _ _ _ _ Hfirst).
    rewrite (leave_then_disconnect_returns (mkWorld l2 _) l3 l4 H3 H4). simpl.
    rewrite <- app_assoc. reflexivity. }
  repeat (split; [assumption|]).
  intros Hopen. simpl. rewrite Ho1, Ho3, Ho2, Ho4, Hopen. reflexivity.
Qed.

Variable cfg : RealtimeClientConfiguration.
Variable getAuthTokenFromCookie : Thrown + option string.

(** C3. For the connection that each of the three listeners returns, over a
    library whose [leave] and [disconnect] return and whose [disconnect]
    leaves the connection not open: [disconnect()] leaves the channel and
    then disconnects the socket; a second [disconnect()] does the same two
    calls, does not throw, and finds and leaves the connection not open, so
    a connection that was open is closed once. *)
Theorem disconnect_leaves_then_closes_idempotent `{!PhoenixTeardown Lib} :
  (forall opts w conn w',
      DbChanges.listenToDbChanges cfg getAuthTokenFromCookie opts w = (inr conn, w') ->
      disconnects_twice (DbChanges.disconnect conn))
  /\ (forall opts w conn w',
        Broadcasts.listenForBroadcasts cfg getAuthTokenFromCookie opts w = (inr conn, w') ->
        disconnects_twice (Broadcasts.disconnect conn))
  /\ (forall opts w conn w',
        Presence.listenToPresenceChanges cfg getAuthTokenFromCookie opts w = (inr conn, w') ->
        disconnects_twice (Presence.disconnect conn)).
Proof.
  repeat split; intros opts w conn w' Hrun.
  - rewrite (listenToDbChanges_returns cfg getAuthTokenFromCookie opts w conn w' Hrun).
    apply leave_then_disconnect_twice.
  - rewrite (listenForBroadcasts_returns cfg getAuthTokenFromCookie opts w conn w' Hrun).
    apply leave_then_disconnect_twice.
  - rewrite (listenToPresenceChanges_returns cfg getAuthTokenFromCookie opts w conn w' Hrun).
    apply leave_then_disconnect_twice.
Qed.

End Teardown.

(** *** A library that never fails

    A socket with one channel whose calls all return: [connect] opens the
    connection and [disconnect] closes it, [join] and [leave] enter and exit
    the channel, [push] queues a message. *)

Record Simple : Type := mkSimple {
  connected : bool;
  joined : bool;
  pushed : list (string * JsValue)
}.

Definition simple_call (c : Call) (l : Simple) : Thrown + Simple :=
  inr match c with
      | SocketConnect => mkSimple true (joined l) (pushed l)
      | ChannelJoin => mkSimple (connected l) true (pushed l)
      | ChannelPush event payload =>
          mkSimple (connected l) (joined l) (pushed l ++ [(event, payload)])
      | ChannelLeave => mkSimple (connected l) false (pushed l)
      | SocketDisconnect => mkSimple false (joined l) (pushed l)
      | NewSocket _ _ | SocketChannel _ | ChannelReceive _ | ChannelOn _ => l
      end.

#[export] Instance simple_phoenix : Phoenix Simple := {
  phx_call := simple_call;
  socket_open := connected
}.

#[export] Instance simple_teardown : PhoenixTeardown Simple.
Proof.
  split.
  - intros l. eexists. reflexivity.
  - intros l. eexists. reflexivity.
  - intros l l' Hcall. injection Hcall as <-. reflexivity.
  - intros l l' Hcall. injection Hcall as <-. reflexivity.
Qed.

Definition cfg_example : RealtimeClientConfiguration :=
  mkRealtimeCfg "p1" "https://rt.example:8000" (Some "tok") None false.

(** Before a listener is called: no socket, nothing logged. *)
Definition fresh : World Simple := mkWorld (mkSimple false false []) [].

(** A callback that returns. *)
Definition returns {A} : Callback A := fun _ => None.

Definition db_options : DbChanges.Options :=
  DbChanges.mkOptions (Some returns) (Some returns) (Some returns).

Definition broadcast_options : Broadcasts.Options :=
  Broadcasts.mkOptions "chat" (Some returns) (Some returns) (Some returns).

Definition presence_options : Presence.Options :=
  Presence.mkOptions (Some returns) (Some returns) (Some returns)
    (Some returns) (Some returns).

(** What the two listeners below return over [fresh], and the world they
    leave. *)
Definition db_connection : DbChanges.DbChangesSocketConnection Simple :=
  DbChanges.mkConnection leave_then_disconnect
    (DbChanges.mkChannel "db:p1"
       (DbChanges.on_join_ok db_options)
       (DbChanges.on_join_error db_options)
       (DbChanges.on_pg_change db_options)).

Definition db_listening : World Simple :=
  mkWorld (mkSimple true true [])
    [EvConsoleLog "⚠️ (dabblebase): Connecting to realtime without auth token";
     EvCall (NewSocket "ws://rt.example:8000/ws" [("project_token", "tok")]);
     EvCall SocketConnect;
     EvCall (SocketChannel "db:p1");
     EvCall ChannelJoin;
     EvCall (ChannelReceive "ok");
     EvCall (ChannelReceive "error");
     EvCall (ChannelOn "pg_change")].

Definition presence_connection : Presence.PresenceSocketConnection Simple :=
  Presence.mkConnection leave_then_disconnect
    (Presence.mkChannel "presence:p1"
       (Presence.on_join_ok presence_options)
       (Presence.on_join_error presence_options)
       (Presence.on_presence_state presence_options)
       (Presence.on_presence_diff presence_options)).

Definition presence_listening : World Simple :=
  mkWorld (mkSimple true true [])
    [EvConsoleLog "⚠️ (dabblebase): Connecting to realtime without auth token";
     EvCall (NewSocket "ws://rt.example:8000/ws" [("project_token", "tok")]);
     EvCall SocketConnect;
     EvCall (SocketChannel "presence:p1");
     EvCall ChannelJoin;
     EvCall (ChannelReceive "ok");
     EvCall (ChannelReceive "error");
     EvCall (ChannelOn "presence_state");
     EvCall (ChannelOn "presence_diff")].

Example listenToDbChanges_run :
  DbChanges.listenToDbChanges cfg_example (inr None) db_options fresh
  = (inr db_connection, db_listening).
Proof. reflexivity. Qed.

Example listenToPresenceChanges_run :
  Presence.listenToPresenceChanges cfg_example (inr None) presence_options fresh
  = (inr presence_connection, presence_listening).
Proof. reflexivity. Qed.

Lemma disconnect_twice_witness :
  disconnects_twice (Presence.disconnect presence_connection)
  /\ (Presence.disconnect presence_connection ;;;
      Presence.disconnect presence_connection) presence_listening
     = (inr tt,
        mkWorld (mkSimple false false [])
          (log presence_listening
             ++ [EvCall ChannelLeave; EvCall SocketDisconnect;
                 EvCall ChannelLeave; EvCall SocketDisconnect])).
Proof.
  split; [|reflexivity].
  destruct (disconnect_leaves_then_closes_idempotent
              (Lib := Simple) cfg_example (inr None)) as [_ [_ Hpresence]].
  apply (Hpresence presence_options fresh presence_connection presence_listening).
  reflexivity.
Defined.

(** A callback that throws [new Error("boom")]. *)
Definition throws_boom {A} : Callback A :=
  fun _ => Some (ThrowError (Error "boom")).

Definition db_options_throwing : DbChanges.Options :=
  DbChanges.mkOptions (Some returns) (Some throws_boom) (Some returns).

Definition db_connection_throwing : DbChanges.DbChangesSocketConnection Simple :=
  DbChanges.mkConnection leave_then_disconnect
    (DbChanges.mkChannel "db:p1"
       (DbChanges.on_join_ok db_options_throwing)
       (DbChanges.on_join_error db_options_throwing)
       (DbChanges.on_pg_change db_options_throwing)).

Example listenToDbChanges_throwing_run :
  DbChanges.listenToDbChanges cfg_example (inr None) db_options_throwing fresh
  = (inr db_connection_throwing, db_listening).
Proof. reflexivity. Qed.

Lemma join_failure_witness :
  DbChanges.receive_error (DbChanges.channel db_connection) "unauthorized"
    db_listening
  = (inl (ThrowError DbChanges.join_failed),
     mkWorld (lib db_listening)
       (log db_listening
          ++ [EvConsoleError "❌ (dabblebase): Failed to join database channel:"
                "unauthorized";
              EvOnConnectError "unauthorized"]))
  /\ DbChanges.receive_error (DbChanges.channel db_connection_throwing)
       "unauthorized" db_listening
     = (inl (ThrowError (Error "boom")),
        mkWorld (lib db_listening)
          (log db_listening
             ++ [EvConsoleError "❌ (dabblebase): Failed to join database channel:"
                   "unauthorized";
                 EvOnConnectError "unauthorized"])).
Proof.
  split.
  - destruct (join_failure_reported_then_raised
                (Lib := Simple) cfg_example (inr None) returns "unauthorized"
                db_listening) as [Hdb _].
    apply (Hdb db_options fresh db_connection db_listening); reflexivity.
  - destruct (join_failure_reported_then_raised
                (Lib := Simple) cfg_example (inr None) throws_boom "unauthorized"
                db_listening) as [Hdb _].
    apply (Hdb db_options_throwing fresh db_connection_throwing db_listening);
      reflexivity.
Defined.

(** C5 as stated fails for an [onConnectError] callback that throws: the
    listener has returned its connection, the join fails, the callback is
    called, and what leaves the handler is the callback's exception; the fatal
    error of the join attempt is not raised. *)
Lemma join_failure_callback_throw_replaces_fatal_error :
  DbChanges.listenToDbChanges cfg_example (inr None) db_options_throwing fresh
  = (inr db_connection_throwing, db_listening)
  /\ DbChanges.receive_error (DbChanges.channel db_connection_throwing)
       "unauthorized" db_listening
     = (inl (ThrowError (Error "boom")),
        mkWorld (lib db_listening)
          (log db_listening
             ++ [EvConsoleError "❌ (dabblebase): Failed to join database channel:"
                   "unauthorized";
                 EvOnConnectError "unauthorized"]))
  /\ fst (DbChanges.receive_error (DbChanges.channel db_connection_throwing)
            "unauthorized" db_listening)
     <> inl (ThrowError DbChanges.join_failed).
Proof.
  split; [reflexivity|]. split; [reflexivity|].
  intros Heq. discriminate Heq.
Qed.

Definition online_t1 : PresenceUser := mkPresenceUser "t1" [].

(** Joins [{u1: [{online_at: "t1"}]}] and no leaves: one [onPresenceJoin]
    call, then the snapshot with [u1]. *)
Lemma presence_diff_witness :
  Presence.on_presence_diff presence_options
    (mkDiff [("u1", mkEntry [online_t1])] []) fresh
  = (inr tt,
     mkWorld (lib fresh)
       [EvOnPresenceJoin "u1" online_t1;
        EvOnReceivePresenceState [("u1", mkEntry [online_t1])]]).
Proof.
  exact (proj1 (Presence.presence_diff_dispatch (Lib := Simple) presence_options
                  returns returns returns (mkDiff [("u1", mkEntry [online_t1])] []) fresh
                  eq_refl eq_refl eq_refl
                  (fun _ => eq_refl) (fun _ => eq_refl) (fun _ => eq_refl))).
Defined.

(** C1 as stated fails for a user of [diff.joins] whose metadata list is
    empty: [u1] is in [diff.joins], [onPresenceJoin] is supplied, and the
    handler returns without a call of it; the snapshot still has [u1]. *)
Lemma presence_diff_skips_user_without_metas :
  In "u1" (Presence.userIds (joins (mkDiff [("u1", mkEntry [])] [])))
  /\ Presence.on_presence_diff presence_options
       (mkDiff [("u1", mkEntry [])] []) fresh
     = (inr tt,
        mkWorld (lib fresh) [EvOnReceivePresenceState [("u1", mkEntry [])]])
  /\ filter (Presence.is_join_of "u1")
       (log (snd (Presence.on_presence_diff presence_options
                    (mkDiff [("u1", mkEntry [])] []) fresh)))
     = [].
Proof.
  split; [left; reflexivity|]. split; reflexivity.
Qed.

(** *** The auth token of the cookie *)

Section Cookie.

(** [decodeURIComponent] of the platform: the decoded text, or a
    [URIError]. *)
Variable decodeURIComponent : string -> Thrown + string.

(** [decodeURIComponent(value)] for the [value] of the destructuring
    [[name, value]]: [undefined] when the cookie has no [=], and then read as
    the text [undefined]. *)
Definition decode_value (more : list string) : Thrown + option string :=
  match decodeURIComponent (match more with
                            | value :: _ => value
                            | [] => "undefined"
                            end) with
  | inl t => inl t
  | inr token => inr (Some token)
  end.

(** The [for] loop over the cookies. *)
Fixpoint scan_cookies (cookies : list string) : Thrown + option string :=
  match cookies with
  | [] => inr None
  | cookie :: rest =>
      match Storage.split JsString.equals (JsString.trim cookie) with
      | name :: more =>
          if String.eqb name "auth-token" then decode_value more
          else scan_cookies rest
      | [] => scan_cookies rest
      end
  end.

(** [document] is [None] where [typeof document] is ["undefined"], and
    [document.cookie] otherwise. *)
Definition getAuthTokenFromCookie (document : option string)
  : Thrown + option string :=
  match document with
  | None => inr None
  | Some cookie => scan_cookies (Storage.split JsString.semicolon cookie)
  end.

Lemma scan_cookies_app (xs ys : list string) :
  scan_cookies xs = inr None -> scan_cookies (xs ++ ys) = scan_cookies ys.
Proof.
  induction xs as [|x xs IH]; simpl; [reflexivity|].
  destruct (Storage.split JsString.equals (JsString.trim x)) as [|name more];
    [exact IH|].
  destruct (String.eqb name "auth-token"); [|exact IH].
  unfold decode_value. destruct (decodeURIComponent _); discriminate.
Qed.

Lemma scan_auth_cookie (before v tail : string) (rest : list string) :
  (before = "" \/ before = " ") ->
  Storage.all_chars Storage.is_unreserved v = true ->
  JsString.value_ends tail = true ->
  scan_cookies
    ((before ++ "auth-token=" ++ v
        ++ hd "" (Storage.split JsString.semicolon tail)) :: rest)
  = decode_value [v].
Proof.
  intros Hbefore Hchars Htail.
  pose proof (JsString.unreserved_no_ws v Hchars) as Hnows.
  assert (Heq : Storage.contains JsString.equals v = false)
    by (apply JsString.unreserved_excludes; [exact Hchars|reflexivity]).
  set (h := hd "" (Storage.split JsString.semicolon tail)).
  assert (Htrim : JsString.trim (before ++ "auth-token=" ++ v ++ h)
                  = "auth-token" ++ String JsString.equals (v ++ JsString.trimEnd h)).
  { destruct Hbefore as [-> | ->].
    - exact (proj2 (JsString.trim_auth_cookie v h Hnows)).
    - exact (proj1 (JsString.trim_auth_cookie v h Hnows)). }
  assert (Hend : JsString.trimEnd h = ""
                 \/ exists h', JsString.trimEnd h = String JsString.equals h').
  { destruct (JsString.value_ends_head tail Htail) as [Hh|[h' Hh]];
      fold h in Hh; rewrite Hh.
    - left. reflexivity.
    - right. rewrite JsString.trimEnd_keeps by reflexivity. eexists. reflexivity. }
  destruct (JsString.split_value_head v _ Heq Hend) as [more Hsplit].
  cbn [scan_cookies]. rewrite Htrim.
  rewrite (Storage.split_app_sep JsString.equals "auth-token" _ eq_refl), Hsplit.
  reflexivity.
Qed.

(** X15. [getAuthTokenFromCookie] gives [null] where there is no [document].
    With a [document], for a value [v] made of unreserved characters that
    ends at the end of the string, at a [;] or at a [=], it gives
    [decodeURIComponent(v)]: for [auth-token=v] as the first cookie, and for
    a later cookie [; auth-token=v] when the cookies before it give
    [null]. *)
Theorem getAuthTokenFromCookie_returns_value (pre v tail : string) :
  Storage.all_chars Storage.is_unreserved v = true ->
  JsString.value_ends tail = true ->
  getAuthTokenFromCookie None = inr None
  /\ getAuthTokenFromCookie (Some ("auth-token=" ++ v ++ tail)) = decode_value [v]
  /\ (getAuthTokenFromCookie (Some pre) = inr None ->
      getAuthTokenFromCookie (Some (pre ++ "; auth-token=" ++ v ++ tail))
      = decode_value [v]).
Proof.
  intros Hchars Htail.
  assert (Hsemi : Storage.contains JsString.semicolon v = false)
    by (apply JsString.unreserved_excludes; [exact Hchars|reflexivity]).
  split; [reflexivity|]. split.
  - unfold getAuthTokenFromCookie.
    rewrite <- (Storage.append_assoc "auth-token=" v tail).
    rewrite JsString.split_head_append
      by (rewrite Storage.contains_app, Hsemi; reflexivity).
    rewrite Storage.append_assoc.
    apply (scan_auth_cookie "" v tail _ (or_introl eq_refl) Hchars Htail).
  - unfold getAuthTokenFromCookie. intros Hpre.
    change (pre ++ "; auth-token=" ++ v ++ tail)
      with (pre ++ String JsString.semicolon (" auth-token=" ++ v ++ tail)).
    rewrite JsString.split_append, (scan_cookies_app _ _ Hpre).
    rewrite <- (Storage.append_assoc " auth-token=" v tail).
    rewrite JsString.split_head_append
      by (rewrite Storage.contains_app, Hsemi; reflexivity).
    rewrite Storage.append_assoc.
    apply (scan_auth_cookie " " v tail _ (or_intror eq_refl) Hchars Htail).
Qed.

End Cookie.

(** A [decodeURIComponent] for text without [%]: it returns its argument. *)
Definition decode_plain (s : string) : Thrown + string := inr s.

Lemma getAuthTokenFromCookie_witness :
  getAuthTokenFromCookie decode_plain
    (Some "theme=dark; auth-token=abc.def; lang=en")
  = inr (Some "abc.def").
Proof.
  apply (proj2 (proj2 (getAuthTokenFromCookie_returns_value decode_plain
                         "theme=dark" "abc.def" "; lang=en" eq_refl eq_refl))).
  reflexivity.
Defined.

(** *** Further properties of the socket *)

(** The URL [createWebsocket] opens the socket at. *)
Definition socketUrl (cfg : RealtimeClientConfiguration) : string :=
  (if useSecureWebsocketConnection cfg then "wss" else "ws")
    ++ "://" ++ strip_scheme (realtimeUrl cfg) ++ "/ws".

Definition connecting_with_token : string :=
  "✅ (dabblebase): Connecting to realtime with auth token".

Definition connecting_without_token : string :=
  "⚠️ (dabblebase): Connecting to realtime without auth token".

Lemma substring_all (s : string) : String.substring 0 (String.length s) s = s.
Proof. induction s as [|c rest IH]; simpl; [reflexivity|]. rewrite IH. reflexivity. Qed.

Lemma prefix_empty (s : string) : String.prefix "" s = true.
Proof. destruct s; reflexivity. Qed.

Lemma strip_scheme_http (host : string) : strip_scheme ("http://" ++ host) = host.
Proof.
  unfold strip_scheme. simpl. rewrite prefix_empty, Nat.sub_0_r.
  apply substring_all.
Qed.

Lemma strip_scheme_https (host : string) : strip_scheme ("https://" ++ host) = host.
Proof.
  unfold strip_scheme. simpl. rewrite prefix_empty, Nat.sub_0_r.
  apply substring_all.
Qed.

Lemma strip_scheme_none (host : string) :
  String.prefix "http://" host = false -> String.prefix "https://" host = false ->
  strip_scheme host = host.
Proof. intros H1 H2. unfold strip_scheme. rewrite H1, H2. reflexivity. Qed.

(** X16. The socket URL is [ws://host/ws], or [wss://host/ws] for a secure
    connection, where [host] is the realtime URL without its leading
    [http://] or [https://]; one scheme is removed, not more. *)
Theorem socketUrl_of_host (cfg : RealtimeClientConfiguration) (host : string) :
  realtimeUrl cfg = "http://" ++ host
  \/ realtimeUrl cfg = "https://" ++ host
  \/ (realtimeUrl cfg = host
      /\ String.prefix "http://" host = false
      /\ String.prefix "https://" host = false) ->
  socketUrl cfg
  = (if useSecureWebsocketConnection cfg then "wss" else "ws")
      ++ "://" ++ host ++ "/ws".
Proof.
  unfold socketUrl. intros [Hu|[Hu|(Hu & H1 & H2)]]; rewrite Hu.
  - rewrite strip_scheme_http. reflexivity.
  - rewrite strip_scheme_https. reflexivity.
  - rewrite (strip_scheme_none host H1 H2). reflexivity.
Qed.

Lemma socketUrl_of_host_witness :
  socketUrl (mkRealtimeCfg "p1" "https://http://rt.example" None None true)
  = "wss://http://rt.example/ws".
Proof.
  apply (socketUrl_of_host
           (mkRealtimeCfg "p1" "https://http://rt.example" None None true)
           "http://rt.example").
  right. left. reflexivity.
Defined.

Section SocketParams.
Context {Lib : Type} `{Phoenix Lib}.
Variable cfg : RealtimeClientConfiguration.

(** The log after [createWebsocket] made the socket with [params], and
    the outcome of the constructor. *)
Definition socket_made (greeting : string) (params : list (string * string))
  (w : World Lib) : (Thrown + unit) * World Lib :=
  call (NewSocket (socketUrl cfg) params)
       (mkWorld (lib w) (log w ++ [EvConsoleLog greeting])).

Definition project_param : string * string :=
  ("project_token", nullish_default (projectToken cfg) "").

(** X17. A token given in the configuration is the one sent: the cookie is not
    consulted, so what it holds, or an exception in reading it, changes
    nothing. The socket gets [project_token] and [auth_token]. *)
Theorem configured_token_wins
  (tok : string) (cookie : Thrown + option string) (w : World Lib) :
  authToken cfg = Some tok -> tok <> "" ->
  createWebsocket cfg cookie w
  = socket_made connecting_with_token [project_param; ("auth_token", tok)] w.
Proof.
  intros Hcfg Htok. apply truthy_true_iff in Htok.
  unfold createWebsocket, socket_made. rewrite Hcfg. cbn [truthy_opt].
  rewrite Htok. unfold bind at 1. unfold ret at 1. cbv beta iota.
  rewrite Htok. reflexivity.
Qed.

(** X18. With no token in the configuration the cookie decides: a non-empty
    token of the cookie is sent as [auth_token]; with no cookie token (or an
    empty one) the socket gets [project_token] alone; and when reading the
    cookie throws, [createWebsocket] throws the same and makes no socket. *)
Theorem cookie_token_is_the_fallback (w : World Lib) :
  truthy_opt (authToken cfg) = false ->
  (forall tok, tok <> "" ->
      createWebsocket cfg (inr (Some tok)) w
      = socket_made connecting_with_token [project_param; ("auth_token", tok)] w)
  /\ createWebsocket cfg (inr None) w
     = socket_made connecting_without_token [project_param] w
  /\ createWebsocket cfg (inr (Some "")) w
     = socket_made connecting_without_token [project_param] w
  /\ (forall t, createWebsocket cfg (inl t) w = (inl t, w)).
Proof.
  intros Hcfg. unfold createWebsocket, socket_made. rewrite Hcfg.
  repeat split.
  intros tok Htok. apply truthy_true_iff in Htok.
  unfold bind at 1. unfold ret at 1. cbv beta iota. rewrite Htok. reflexivity.
Qed.

End SocketParams.

Lemma configured_token_wins_witness :
  createWebsocket (mkRealtimeCfg "p1" "rt.example" (Some "tok") (Some "jwt") false)
    (inl (ThrowOther "URIError")) fresh
  = (inr tt,
     mkWorld (lib fresh)
       [EvConsoleLog connecting_with_token;
        EvCall (NewSocket "ws://rt.example/ws"
                  [("project_token", "tok"); ("auth_token", "jwt")])]).
Proof.
  rewrite (configured_token_wins (Lib := Simple)
             (mkRealtimeCfg "p1" "rt.example" (Some "tok") (Some "jwt") false)
             "jwt" (inl (ThrowOther "URIError")) fresh eq_refl
             ltac:(discriminate)).
  reflexivity.
Defined.

Lemma cookie_token_is_the_fallback_witness :
  createWebsocket cfg_example (inr None) fresh
  = (inr tt,
     mkWorld (lib fresh)
       [EvConsoleLog connecting_without_token;
        EvCall (NewSocket "ws://rt.example:8000/ws" [("project_token", "tok")])]).
Proof.
  rewrite (proj1 (proj2 (cookie_token_is_the_fallback (Lib := Simple)
                           cfg_example fresh eq_refl))).
  reflexivity.
Defined.

(** *** Further properties of the handlers *)

Section Handlers.
Context {Lib : Type}.

Lemma forEach_handle_join_prefix (opts : Presence.Options)
  (onJoin : Callback (string * PresenceUser)) (before : PresenceState) :
  Presence.onPresenceJoin opts = Some onJoin ->
  (forall v e m more,
      In (v, e) before -> metas e = m :: more -> onJoin (v, m) = None) ->
  forall (rest : PresenceState) (w : World Lib),
    forEach (before ++ rest) (Presence.handle_join opts) w
    = forEach rest (Presence.handle_join opts)
        (mkWorld (lib w) (log w ++ Presence.join_calls before)).
Proof.
  intros Hcb. induction before as [|[v e] before IH]; intros Hret rest w.
  - simpl. rewrite app_nil_r. destruct w; reflexivity.
  - cbn [app forEach]. unfold Presence.join_calls. cbn [flat_map].
    unfold Presence.first_meta_event at 1. cbn [fst snd].
    assert (Hstep : Presence.handle_join opts (v, e) w
                    = (inr tt, mkWorld (lib w)
                         (log w ++ match metas e with
                                   | first :: _ => [EvOnPresenceJoin v first]
                                   | [] => []
                                   end))).
    { unfold Presence.handle_join. destruct (metas e) as [|m more] eqn:Hm.
      - rewrite app_nil_r. destruct w; reflexivity.
      - rewrite Hcb. apply invoke_returns.
        apply (Hret v e m more); [left; reflexivity|exact Hm]. }
    rewrite (bind_returned _ _ _ _ _ Hstep), IH.
    + cbn [lib log]. rewrite <- app_assoc. reflexivity.
    + intros v' e' m more Hin. apply Hret. right. exact Hin.
Qed.

(** X19. An [onPresenceJoin] that throws ends the handling of the diff: the
    exception leaves the handler, and the joined users after that one, the
    users who left and the state snapshot are not reported. *)
Theorem throwing_join_callback_ends_dispatch
  (opts : Presence.Options) (onJoin : Callback (string * PresenceUser))
  (before after leaving : PresenceState) (u : string) (e : PresenceEntry)
  (first : PresenceUser) (more : list PresenceUser) (t : Thrown)
  (w : World Lib) :
  Presence.onPresenceJoin opts = Some onJoin ->
  (forall v e' m more',
      In (v, e') before -> metas e' = m :: more' -> onJoin (v, m) = None) ->
  metas e = first :: more ->
  onJoin (u, first) = Some t ->
  Presence.on_presence_diff opts (mkDiff (before ++ (u, e) :: after)%list leaving) w
  = (inl t,
     mkWorld (lib w)
       (log w ++ Presence.join_calls before ++ [EvOnPresenceJoin u first])).
Proof.
  intros Hcb Hret Hmetas Hthrow. unfold Presence.on_presence_diff. cbn [joins].
  assert (Hjoins : forEach (before ++ (u, e) :: after) (Presence.handle_join opts) w
                   = (inl t, mkWorld (lib w)
                               (log w ++ Presence.join_calls before
                                      ++ [EvOnPresenceJoin u first]))).
  { rewrite (forEach_handle_join_prefix opts onJoin before Hcb Hret).
    cbn [forEach].
    assert (Hstep : Presence.handle_join opts (u, e)
                      (mkWorld (lib w) (log w ++ Presence.join_calls before))
                    = (inl t, mkWorld (lib w)
                                ((log w ++ Presence.join_calls before)
                                   ++ [EvOnPresenceJoin u first]))).
    { unfold Presence.handle_join. rewrite Hmetas, Hcb.
      exact (invoke_throws (EvOnPresenceJoin u first) onJoin (u, first) t
               (mkWorld (lib w) (log w ++ Presence.join_calls before)) Hthrow). }
    rewrite (bind_thrown _ _ _ _ _ Hstep), <- app_assoc. reflexivity. }
  apply (bind_thrown _ _ _ _ _ Hjoins).
Qed.

Lemma forEach_returns_unchanged {A} (f : A -> RT Lib unit) (xs : list A) :
  (forall x w, f x w = (inr tt, w)) ->
  forall w, forEach xs f w = (inr tt, w).
Proof.
  intros Hf. induction xs as [|x xs IH]; intros w; [reflexivity|].
  cbn [forEach]. rewrite (bind_returned _ _ _ _ _ (Hf x w)). apply IH.
Qed.

(** X20. Every callback is optional. An event whose callbacks were not supplied
    is handled without any effect and without an exception: a database
    change, a broadcast message, a presence state and a presence diff. *)
Theorem events_without_callbacks_are_ignored (w : World Lib) :
  (forall o payload,
      DbChanges.onDbChange o = None ->
      DbChanges.on_pg_change o payload w = (inr tt, w))
  /\ (forall o payload,
        Broadcasts.onReceiveMessage o = None ->
        Broadcasts.on_message o payload w = (inr tt, w))
  /\ (forall o state,
        Presence.onReceivePresenceState o = None ->
        Presence.on_presence_state o state w = (inr tt, w))
  /\ (forall o diff,
        Presence.onPresenceJoin o = None ->
        Presence.onPresenceLeave o = None ->
        Presence.onReceivePresenceState o = None ->
        Presence.on_presence_diff o diff w = (inr tt, w)).
Proof.
  repeat split.
  - intros o payload Hcb. unfold DbChanges.on_pg_change. rewrite Hcb. reflexivity.
  - intros o payload Hcb. unfold Broadcasts.on_message. rewrite Hcb. reflexivity.
  - intros o state Hcb. unfold Presence.on_presence_state. rewrite Hcb. reflexivity.
  - intros o diff HJ HL HS. unfold Presence.on_presence_diff.
    rewrite (bind_returned _ _ w tt w).
    + rewrite (bind_returned _ _ w tt w); [rewrite HS; reflexivity|].
      apply forEach_returns_unchanged. intros [v e] w0.
      unfold Presence.handle_leave. rewrite HL.
      destruct (metas e); reflexivity.
    + apply forEach_returns_unchanged. intros [v e] w0.
      unfold Presence.handle_join. rewrite HJ.
      destruct (metas e); reflexivity.
Qed.

(** X21. A failed join is fatal also when no [onConnectError] was supplied: the
    failure is logged with [console.error] and the fatal error is thrown,
    for each of the three kinds of connection. *)
Theorem join_failure_without_callback_still_raised
  (error : JsValue) (w : World Lib) :
  (forall o,
      DbChanges.onConnectError o = None ->
      DbChanges.on_join_error o error w
      = (inl (ThrowError DbChanges.join_failed),
         mkWorld (lib w)
           (log w ++ [EvConsoleError
                        "❌ (dabblebase): Failed to join database channel:" error])))
  /\ (forall o,
        Broadcasts.onConnectError o = None ->
        Broadcasts.on_join_error o error w
        = (inl (ThrowError (Broadcasts.join_failed (Broadcasts.channelName o))),
           mkWorld (lib w)
             (log w ++ [EvConsoleError
                          ("❌ (dabblebase): Failed to join broadcast channel '"
                           ++ Broadcasts.channelName o ++ "':") error])))
  /\ (forall o,
        Presence.onConnectError o = None ->
        Presence.on_join_error o error w
        = (inl (ThrowError Presence.join_failed),
           mkWorld (lib w)
             (log w ++ [EvConsoleError
                          "❌ (dabblebase): Failed to join presence channel:" error]))).
Proof.
  repeat split; intros o Hcb.
  - unfold DbChanges.on_join_error. rewrite Hcb. reflexivity.
  - unfold Broadcasts.on_join_error. rewrite Hcb. reflexivity.
  - unfold Presence.on_join_error. rewrite Hcb. reflexivity.
Qed.

(** X22. When the join succeeds the success is logged and [onConnect] is called,
    once and with nothing else, for each of the three kinds of connection;
    what [onConnect] throws leaves the continuation. *)
Theorem join_success_calls_onConnect
  (cb : Callback unit) (w : World Lib) :
  (forall o,
      DbChanges.onConnect o = Some cb ->
      DbChanges.on_join_ok o w
      = (match cb tt with Some t => inl t | None => inr tt end,
         mkWorld (lib w)
           (log w ++ [EvConsoleLog
                        "✅ (dabblebase): Joined database channel successfully";
                      EvOnConnect])))
  /\ (forall o,
        Broadcasts.onConnect o = Some cb ->
        Broadcasts.on_join_ok o w
        = (match cb tt with Some t => inl t | None => inr tt end,
           mkWorld (lib w)
             (log w ++ [EvConsoleLog
                          ("✅ (dabblebase): Joined broadcast channel '"
                           ++ Broadcasts.channelName o ++ "' successfully");
                        EvOnConnect])))
  /\ (forall o,
        Presence.onConnect o = Some cb ->
        Presence.on_join_ok o w
        = (match cb tt with Some t => inl t | None => inr tt end,
           mkWorld (lib w)
             (log w ++ [EvConsoleLog
                          "✅ (dabblebase): Joined presence channel successfully";
                        EvOnConnect]))).
Proof.
  repeat split; intros o Hcb.
  - unfold DbChanges.on_join_ok. rewrite Hcb.
    unfold bind, emit, invoke, bind, emit, ret, throw. simpl.
    rewrite <- app_assoc. destruct (cb tt); reflexivity.
  - unfold Broadcasts.on_join_ok. rewrite Hcb.
    unfold bind, emit, invoke, bind, emit, ret, throw. simpl.
    rewrite <- app_assoc. destruct (cb tt); reflexivity.
  - unfold Presence.on_join_ok. rewrite Hcb.
    unfold bind, emit, invoke, bind, emit, ret, throw. simpl.
    rewrite <- app_assoc. destruct (cb tt); reflexivity.
Qed.

End Handlers.

(** A callback that throws for the user [u2] and returns for the others. *)
Definition throws_for_u2 : Callback (string * PresenceUser) :=
  fun a => if String.eqb (fst a) "u2" then Some (ThrowOther "boom") else None.

Lemma throwing_join_callback_witness :
  Presence.on_presence_diff
    (Presence.mkOptions None None (Some returns) (Some throws_for_u2) (Some returns))
    (mkDiff [("u1", mkEntry [online_t1]); ("u2", mkEntry [online_t1]);
             ("u3", mkEntry [online_t1])]
            [("u0", mkEntry [online_t1])])
    fresh
  = (inl (ThrowOther "boom"),
     mkWorld (lib fresh)
       [EvOnPresenceJoin "u1" online_t1; EvOnPresenceJoin "u2" online_t1]).
Proof.
  apply (throwing_join_callback_ends_dispatch (Lib := Simple)
           (Presence.mkOptions None None (Some returns) (Some throws_for_u2)
              (Some returns))
           throws_for_u2 [("u1", mkEntry [online_t1])]
           [("u3", mkEntry [online_t1])] [("u0", mkEntry [online_t1])]
           "u2" (mkEntry [online_t1]) online_t1 [] (ThrowOther "boom") fresh
           eq_refl).
  - intros v e' m more' [Heq|[]] _. injection Heq as <- <-. reflexivity.
  - reflexivity.
  - reflexivity.
Defined.

(** *** Further properties of the listeners *)

Section Listeners.
Context {Lib : Type} `{Phoenix Lib}.

Lemma call_returns_inv (c : Call) (w w' : World Lib) (u : unit) :
  call c w = (inr u, w') -> log w' = (log w ++ [EvCall c])%list.
Proof.
  unfold call. destruct (phx_call c (lib w)) as [t|l']; [discriminate|].
  intros Hrun. injection Hrun as _ <-. reflexivity.
Qed.

Lemma emit_returns_inv (e : Event) (w w' : World Lib) (u : unit) :
  emit e w = (inr u, w') -> w' = mkWorld (lib w) (log w ++ [e]).
Proof. unfold emit. intros Hrun. injection Hrun as _ <-. reflexivity. Qed.

(** What [createWebsocket] has logged when it returns: one greeting and
    the construction of one socket at [socketUrl], with [project_token] as
    its first parameter. *)
Lemma createWebsocket_returns_inv (cfg : RealtimeClientConfiguration)
  (cookie : Thrown + option string) (w w' : World Lib) (u : unit) :
  createWebsocket cfg cookie w = (inr u, w') ->
  exists greeting params,
    log w' = (log w ++ [EvConsoleLog greeting;
                        EvCall (NewSocket (socketUrl cfg)
                                  (project_param cfg :: params))])%list.
Proof.
  unfold createWebsocket. intros Hrun.
  apply bind_returns_inv in Hrun as (current & w1 & Hcur & Hrun).
  assert (Hw1 : w1 = w).
  { destruct (truthy_opt (authToken cfg)).
    - unfold ret in Hcur. injection Hcur as _ <-. reflexivity.
    - destruct cookie as [t|tok]; [discriminate|].
      unfold ret in Hcur. injection Hcur as _ <-. reflexivity. }
  subst w1.
  assert (Hstep : forall greeting params,
             bind (emit (EvConsoleLog greeting))
                  (fun _ => call (NewSocket (socketUrl cfg)
                                    (project_param cfg :: params))) w
             = (inr u, w') ->
             log w' = (log w ++ [EvConsoleLog greeting;
                                 EvCall (NewSocket (socketUrl cfg)
                                           (project_param cfg :: params))])%list).
  { intros greeting params Hb.
    apply bind_returns_inv in Hb as (u1 & w2 & He & Hc).
    apply emit_returns_inv in He. subst w2.
    apply call_returns_inv in Hc. rewrite Hc. cbn [log].
    rewrite <- app_assoc. reflexivity. }
  destruct current as [tok|].
  - destruct (truthy tok).
    + exists connecting_with_token, [("auth_token", tok)]. apply Hstep. exact Hrun.
    + exists connecting_without_token, []. apply Hstep. exact Hrun.
  - exists connecting_without_token, []. apply Hstep. exact Hrun.
Qed.

Ltac next_call Hrun Hlog :=
  let u := fresh "u" in
  let w := fresh "w" in
  let Hc := fresh "Hc" in
  apply bind_returns_inv in Hrun as (u & w & Hc & Hrun);
  apply call_returns_inv in Hc; rewrite Hlog in Hc; clear Hlog;
  rename Hc into Hlog.

(** X23. A listener that returns has done this and nothing else, in this order:
    logged its greeting, made one socket at [socketUrl], connected it, asked
    it for the channel of its topic, called [join] with the two
    continuations, and bound its event handlers. The topic is [db:],
    [broadcast:] or [presence:] followed by the project id (and, for a
    broadcast, [:] and the channel name). *)
Theorem listener_calls_in_order
  (cfg : RealtimeClientConfiguration) (cookie : Thrown + option string)
  (w w' : World Lib) :
  (forall o conn,
      DbChanges.listenToDbChanges cfg cookie o w = (inr conn, w') ->
      exists greeting params,
        log w' = (log w ++ [EvConsoleLog greeting;
                            EvCall (NewSocket (socketUrl cfg)
                                      (project_param cfg :: params));
                            EvCall SocketConnect;
                            EvCall (SocketChannel ("db:" ++ projectId cfg));
                            EvCall ChannelJoin;
                            EvCall (ChannelReceive "ok");
                            EvCall (ChannelReceive "error");
                            EvCall (ChannelOn "pg_change")])%list)
  /\ (forall o conn,
        Broadcasts.listenForBroadcasts cfg cookie o w = (inr conn, w') ->
        exists greeting params,
          log w' = (log w ++ [EvConsoleLog greeting;
                              EvCall (NewSocket (socketUrl cfg)
                                        (project_param cfg :: params));
                              EvCall SocketConnect;
                              EvCall (SocketChannel
                                        ("broadcast:" ++ projectId cfg ++ ":"
                                           ++ Broadcasts.channelName o));
                              EvCall ChannelJoin;
                              EvCall (ChannelReceive "ok");
                              EvCall (ChannelReceive "error");
                              EvCall (ChannelOn "message")])%list)
  /\ (forall o conn,
        Presence.listenToPresenceChanges cfg cookie o w = (inr conn, w') ->
        exists greeting params,
          log w' = (log w ++ [EvConsoleLog greeting;
                              EvCall (NewSocket (socketUrl cfg)
                                        (project_param cfg :: params));
                              EvCall SocketConnect;
                              EvCall (SocketChannel ("presence:" ++ projectId cfg));
                              EvCall ChannelJoin;
                              EvCall (ChannelReceive "ok");
                              EvCall (ChannelReceive "error");
                              EvCall (ChannelOn "presence_state");
                              EvCall (ChannelOn "presence_diff")])%list).
Proof.
  repeat split; intros o conn Hrun.
  - unfold DbChanges.listenToDbChanges in Hrun.
    apply bind_returns_inv in Hrun as (u0 & w0 & Hsock & Hrun).
    apply createWebsocket_returns_inv in Hsock as (greeting & params & Hlog).
    exists greeting, params.
    next_call Hrun Hlog. cbv zeta in Hrun. cbn [DbChanges.topic] in Hrun.
    do 5 next_call Hrun Hlog.
    unfold ret in Hrun. injection Hrun as _ <-.
    rewrite Hlog, <- !app_assoc. reflexivity.
  - unfold Broadcasts.listenForBroadcasts in Hrun.
    apply bind_returns_inv in Hrun as (u0 & w0 & Hsock & Hrun).
    apply createWebsocket_returns_inv in Hsock as (greeting & params & Hlog).
    exists greeting, params.
    next_call Hrun Hlog. cbv zeta in Hrun. cbn [Broadcasts.topic] in Hrun.
    do 5 next_call Hrun Hlog.
    unfold ret in Hrun. injection Hrun as _ <-.
    rewrite Hlog, <- !app_assoc. reflexivity.
  - unfold Presence.listenToPresenceChanges in Hrun.
    apply bind_returns_inv in Hrun as (u0 & w0 & Hsock & Hrun).
    apply createWebsocket_returns_inv in Hsock as (greeting & params & Hlog).
    exists greeting, params.
    next_call Hrun Hlog. cbv zeta in Hrun. cbn [Presence.topic] in Hrun.
    do 6 next_call Hrun Hlog.
    unfold ret in Hrun. injection Hrun as _ <-.
    rewrite Hlog, <- !app_assoc. reflexivity.
Qed.

(** X24. [broadcast(payload)] pushes one [message] event with the payload on the
    channel and does nothing else: it waits for no reply and calls no
    callback, and it returns exactly when the push does. *)
Theorem broadcast_pushes_once
  (cfg : RealtimeClientConfiguration) (cookie : Thrown + option string)
  (o : Broadcasts.Options) (w0 w1 : World Lib)
  (conn : Broadcasts.BroadcastsSocketConnection Lib)
  (payload : JsValue) (w : World Lib) :
  Broadcasts.listenForBroadcasts cfg cookie o w0 = (inr conn, w1) ->
  log (snd (Broadcasts.broadcast conn payload w))
  = (log w ++ [EvCall (ChannelPush "message" payload)])%list
  /\ (fst (Broadcasts.broadcast conn payload w) = inr tt
      <-> exists l', phx_call (ChannelPush "message" payload) (lib w) = inr l').
Proof.
  intros Hrun.
  rewrite (listenForBroadcasts_returns cfg cookie o w0 conn w1 Hrun).
  cbn [Broadcasts.broadcast]. unfold call.
  destruct (phx_call (ChannelPush "message" payload) (lib w)) as [t|l'].
  - split; [reflexivity|]. split; [discriminate|]. intros [l' Hl]. discriminate.
  - split; [reflexivity|]. split; [|reflexivity]. intros _. exists l'. reflexivity.
Qed.

(** X25. The three kinds of connection never share a topic, whatever the project
    ids and the channel name; and for one project two channel names give two
    topics. *)
Theorem topics_are_separate
  (cfg1 cfg2 cfg3 : RealtimeClientConfiguration)
  (cookie : Thrown + option string)
  (o1 : DbChanges.Options) (o2 : Broadcasts.Options) (o3 : Presence.Options)
  (w1 w1' w2 w2' w3 w3' : World Lib)
  (c1 : DbChanges.DbChangesSocketConnection Lib)
  (c2 : Broadcasts.BroadcastsSocketConnection Lib)
  (c3 : Presence.PresenceSocketConnection Lib) :
  DbChanges.listenToDbChanges cfg1 cookie o1 w1 = (inr c1, w1') ->
  Broadcasts.listenForBroadcasts cfg2 cookie o2 w2 = (inr c2, w2') ->
  Presence.listenToPresenceChanges cfg3 cookie o3 w3 = (inr c3, w3') ->
  DbChanges.topic (DbChanges.channel c1) <> Broadcasts.topic (Broadcasts.channel c2)
  /\ DbChanges.topic (DbChanges.channel c1) <> Presence.topic (Presence.channel c3)
  /\ Broadcasts.topic (Broadcasts.channel c2) <> Presence.topic (Presence.channel c3)
  /\ (forall o2' w4 w4' c4,
        Broadcasts.listenForBroadcasts cfg2 cookie o2' w4 = (inr c4, w4') ->
        Broadcasts.topic (Broadcasts.channel c4)
        = Broadcasts.topic (Broadcasts.channel c2) ->
        Broadcasts.channelName o2' = Broadcasts.channelName o2).
Proof.
  intros H1 H2 H3.
  rewrite (listenToDbChanges_returns cfg1 cookie o1 w1 c1 w1' H1).
  rewrite (listenForBroadcasts_returns cfg2 cookie o2 w2 c2 w2' H2).
  rewrite (listenToPresenceChanges_returns cfg3 cookie o3 w3 c3 w3' H3).
  cbn [DbChanges.channel DbChanges.topic Broadcasts.channel Broadcasts.topic
       Presence.channel Presence.topic].
  repeat split; try discriminate.
  intros o2' w4 w4' c4 H4 Heq.
  rewrite (listenForBroadcasts_returns cfg2 cookie o2' w4 c4 w4' H4) in Heq.
  cbn [Broadcasts.channel Broadcasts.topic] in Heq.
  apply Storage.append_inv_head in Heq.
  apply Storage.append_inv_head in Heq.
  apply (Storage.append_inv_head ":") in Heq. exact Heq.
Qed.

End Listeners.

Definition broadcast_connection : Broadcasts.BroadcastsSocketConnection Simple :=
  Broadcasts.mkConnection
    (fun payload => call (ChannelPush "message" payload))
    leave_then_disconnect
    (Broadcasts.mkChannel "broadcast:p1:chat"
       (Broadcasts.on_join_ok broadcast_options)
       (Broadcasts.on_join_error broadcast_options)
       (Broadcasts.on_message broadcast_options)).

Definition broadcast_listening : World Simple :=
  mkWorld (mkSimple true true [])
    [EvConsoleLog "⚠️ (dabblebase): Connecting to realtime without auth token";
     EvCall (NewSocket "ws://rt.example:8000/ws" [("project_token", "tok")]);
     EvCall SocketConnect;
     EvCall (SocketChannel "broadcast:p1:chat");
     EvCall ChannelJoin;
     EvCall (ChannelReceive "ok");
     EvCall (ChannelReceive "error");
     EvCall (ChannelOn "message")].

Example listenForBroadcasts_run :
  Broadcasts.listenForBroadcasts cfg_example (inr None) broadcast_options fresh
  = (inr broadcast_connection, broadcast_listening).
Proof. reflexivity. Qed.

Lemma listener_calls_in_order_witness :
  exists greeting params,
    log broadcast_listening
    = [EvConsoleLog greeting;
       EvCall (NewSocket "ws://rt.example:8000/ws" (("project_token", "tok") :: params));
       EvCall SocketConnect;
       EvCall (SocketChannel "broadcast:p1:chat");
       EvCall ChannelJoin;
       EvCall (ChannelReceive "ok");
       EvCall (ChannelReceive "error");
       EvCall (ChannelOn "message")].
Proof.
  exact (proj1 (proj2 (listener_calls_in_order (Lib := Simple) cfg_example
                         (inr None) fresh broadcast_listening))
           broadcast_options broadcast_connection eq_refl).
Defined.

Lemma broadcast_pushes_once_witness :
  log (snd (Broadcasts.broadcast broadcast_connection "hello" broadcast_listening))
  = (log broadcast_listening ++ [EvCall (ChannelPush "message" "hello")])%list.
Proof.
  exact (proj1 (broadcast_pushes_once (Lib := Simple) cfg_example (inr None)
                  broadcast_options fresh broadcast_listening broadcast_connection
                  "hello" broadcast_listening eq_refl)).
Defined.

Lemma topics_are_separate_witness :
  "db:p1" <> "broadcast:p1:chat"
  /\ "db:p1" <> "presence:p1"
  /\ "broadcast:p1:chat" <> "presence:p1".
Proof.
  destruct (topics_are_separate (Lib := Simple) cfg_example cfg_example cfg_example
              (inr None) db_options broadcast_options presence_options
              fresh db_listening fresh broadcast_listening fresh presence_listening
              db_connection broadcast_connection presence_connection
              listenToDbChanges_run listenForBroadcasts_run
              listenToPresenceChanges_run) as (H12 & H13 & H23 & _).
  split; [exact H12|]. split; [exact H13|exact H23].
Defined.

End Realtime.

(** ** The client ([src/index.ts]) *)

Module Client.
Import Js.

Record ClientConfiguration : Type := mkClientCfg {
  projectId : string;
  projectUrl : string;
  dabblebaseUrl : option string;
  authVerifyKey : option string;
  projectToken : option string;
  realtimeUrl : option string;
  useSecureWebsocketConnection : option bool
}.

(** The three clients of a [DabblebaseClient], each given by the
    configuration it was created with. *)
Record DabblebaseClient : Type := mkClient {
  auth : Auth.AuthClientConfiguration;
  storage : Storage.StorageClientConfiguration;
  realtime : Realtime.RealtimeClientConfiguration
}.

Definition is_digit (c : ascii) : bool :=
  ((48 <=? N_of_ascii c) && (N_of_ascii c <=? 57))%N.

Definition colon : ascii := ":"%char.

(** [s.replace(/:\d+$/, "")]: the text before the first [:] that is
    followed by digits only, at least one, up to the end. *)
Fixpoint strip_port (s : string) : string :=
  match s with
  | EmptyString => EmptyString
  | String c rest =>
      if Ascii.eqb c colon && truthy rest && Storage.all_chars is_digit rest
      then EmptyString
      else String c (strip_port rest)
  end.

Definition default_dabblebaseUrl : string := "www.dabblebase.dev".

Definition createClient (cfg : ClientConfiguration) : DabblebaseClient :=
  let dabblebaseUrl := Auth.with_default (dabblebaseUrl cfg) default_dabblebaseUrl in
  let useSecureWebsocketConnection :=
    Auth.with_default (useSecureWebsocketConnection cfg) false in
  let defaultRealtimeUrl :=
    or_default (realtimeUrl cfg)
      (or_default (Some (strip_port dabblebaseUrl ++ ":8000")) "localhost:8000") in
  mkClient
    (Auth.mkAuthCfg (projectId cfg) (projectUrl cfg) (Some dabblebaseUrl)
       (authVerifyKey cfg))
    (Storage.mkStorageCfg (projectId cfg) dabblebaseUrl (projectToken cfg))
    (Realtime.mkRealtimeCfg (projectId cfg) defaultRealtimeUrl (projectToken cfg)
       None useSecureWebsocketConnection).

(** *** Properties of [createClient] *)

Lemma strip_port_removes_port (host port : string) :
  port <> "" -> Storage.all_chars is_digit port = true ->
  strip_port (host ++ String colon port) = host.
Proof.
  intros Hne Hdigits. apply truthy_true_iff in Hne.
  induction host as [|c rest IH]; cbn [append strip_port].
  - rewrite Ascii.eqb_refl, Hne, Hdigits. reflexivity.
  - rewrite Storage.all_chars_append. cbn [Storage.all_chars].
    replace (is_digit colon) with false by reflexivity.
    rewrite andb_false_r, andb_false_r, IH. reflexivity.
Qed.

Lemma strip_port_without_colon (s : string) :
  Storage.contains colon s = false -> strip_port s = s.
Proof.
  induction s as [|c rest IH]; [reflexivity|]. cbn [Storage.contains strip_port].
  intros H. apply orb_false_iff in H as [Hc Hrest].
  rewrite Hc, (IH Hrest). reflexivity.
Qed.

Lemma appended_is_truthy (a b : string) : truthy b = true -> truthy (a ++ b) = true.
Proof. destruct a; [intros H; exact H|reflexivity]. Qed.

Lemma realtime_url_value (cfg : ClientConfiguration) :
  Realtime.realtimeUrl (realtime (createClient cfg))
  = or_default (realtimeUrl cfg)
      (strip_port (Auth.with_default (dabblebaseUrl cfg) default_dabblebaseUrl)
         ++ ":8000").
Proof.
  unfold createClient. cbn [realtime Realtime.realtimeUrl].
  set (candidate := strip_port _ ++ ":8000").
  assert (Hc : truthy candidate = true) by (apply appended_is_truthy; reflexivity).
  unfold or_default at 2. rewrite Hc. reflexivity.
Qed.

(** X26. The realtime URL of a client: the [realtimeUrl] given, when it is not
    empty, and otherwise the dabblebase URL (or its default) without its
    port, followed by [:8000]. The last alternative of the source,
    [localhost:8000], is never taken, and the URL is never empty. *)
Theorem realtime_url_default (cfg : ClientConfiguration) :
  Realtime.realtimeUrl (realtime (createClient cfg))
  = or_default (realtimeUrl cfg)
      (strip_port (Auth.with_default (dabblebaseUrl cfg) default_dabblebaseUrl)
         ++ ":8000")
  /\ Realtime.realtimeUrl (realtime (createClient cfg)) <> "".
Proof.
  split; [apply realtime_url_value|].
  rewrite realtime_url_value. apply truthy_true_iff. unfold or_default.
  destruct (realtimeUrl cfg) as [u|];
    [|apply appended_is_truthy; reflexivity].
  destruct (truthy u) eqn:Hu; [exact Hu|apply appended_is_truthy; reflexivity].
Qed.

(** X27. With no [realtimeUrl] given, a port at the end of the dabblebase URL
    is replaced by [8000], whatever stands before it, and a dabblebase URL
    without any [:] gets [:8000] appended. *)
Theorem realtime_url_replaces_port
  (cfg : ClientConfiguration) (url host port : string) :
  truthy_opt (realtimeUrl cfg) = false ->
  dabblebaseUrl cfg = Some url ->
  (url = host ++ ":" ++ port /\ port <> ""
   /\ Storage.all_chars is_digit port = true)
  \/ (url = host /\ Storage.contains colon host = false) ->
  Realtime.realtimeUrl (realtime (createClient cfg)) = host ++ ":8000".
Proof.
  intros Hrt Hurl Hshape.
  rewrite (realtime_url_value cfg), Hurl. cbn [Auth.with_default].
  assert (Hdefault : forall d, or_default (realtimeUrl cfg) d = d).
  { intros d. unfold or_default. destruct (realtimeUrl cfg) as [u|]; [|reflexivity].
    cbn [truthy_opt] in Hrt. rewrite Hrt. reflexivity. }
  rewrite Hdefault.
  destruct Hshape as [(-> & Hne & Hdigits)|(-> & Hcolon)].
  - change (host ++ ":" ++ port) with (host ++ String colon port).
    rewrite (strip_port_removes_port host port Hne Hdigits). reflexivity.
  - rewrite (strip_port_without_colon host Hcolon). reflexivity.
Qed.

Lemma realtime_url_replaces_port_witness :
  Realtime.realtimeUrl
    (realtime (createClient
                 (mkClientCfg "p1" "https://app.example"
                    (Some "http://localhost:3000") None None None None)))
  = "http://localhost:8000".
Proof.
  apply (realtime_url_replaces_port
           (mkClientCfg "p1" "https://app.example"
              (Some "http://localhost:3000") None None None None)
           "http://localhost:3000" "http://localhost" "3000" eq_refl eq_refl).
  left. split; [reflexivity|]. split; [discriminate|reflexivity].
Defined.

(** X28. From the configuration of the client to the socket: with no
    [realtimeUrl] given and a dabblebase URL [http://host:port] or
    [https://host:port], a realtime listener opens its socket at
    [ws://host:8000/ws], or [wss://host:8000/ws] when a secure connection is
    asked for; and it holds no auth token of its own, so the token it sends
    is the one of the cookie. *)
Theorem client_socket_url
  (cfg : ClientConfiguration) (scheme host port : string) :
  truthy_opt (realtimeUrl cfg) = false ->
  scheme = "http://" \/ scheme = "https://" ->
  dabblebaseUrl cfg = Some (scheme ++ host ++ ":" ++ port) ->
  port <> "" -> Storage.all_chars is_digit port = true ->
  Realtime.socketUrl (realtime (createClient cfg))
  = (if Auth.with_default (useSecureWebsocketConnection cfg) false
     then "wss" else "ws") ++ "://" ++ host ++ ":8000/ws"
  /\ Realtime.authToken (realtime (createClient cfg)) = None.
Proof.
  intros Hrt Hscheme Hurl Hne Hdigits. split; [|reflexivity].
  assert (Hreal : Realtime.realtimeUrl (realtime (createClient cfg))
                  = scheme ++ host ++ ":8000").
  { rewrite (realtime_url_value cfg), Hurl. cbn [Auth.with_default].
    unfold or_default at 1. destruct (realtimeUrl cfg) as [u|].
    - cbn [truthy_opt] in Hrt. rewrite Hrt.
      rewrite <- Storage.append_assoc.
      change ((scheme ++ host) ++ ":" ++ port)
        with ((scheme ++ host) ++ String colon port).
      rewrite (strip_port_removes_port (scheme ++ host) port Hne Hdigits).
      apply Storage.append_assoc.
    - rewrite <- Storage.append_assoc.
      change ((scheme ++ host) ++ ":" ++ port)
        with ((scheme ++ host) ++ String colon port).
      rewrite (strip_port_removes_port (scheme ++ host) port Hne Hdigits).
      apply Storage.append_assoc. }
  unfold Realtime.socketUrl. rewrite Hreal.
  destruct Hscheme as [-> | ->].
  - rewrite Realtime.strip_scheme_http, Storage.append_assoc. reflexivity.
  - rewrite Realtime.strip_scheme_https, Storage.append_assoc. reflexivity.
Qed.

Lemma client_socket_url_witness :
  Realtime.socketUrl
    (realtime (createClient
                 (mkClientCfg "p1" "https://app.example"
                    (Some "https://db.example:443") None None None (Some true))))
  = "wss://db.example:8000/ws".
Proof.
  apply (proj1 (client_socket_url
                  (mkClientCfg "p1" "https://app.example"
                     (Some "https://db.example:443") None None None (Some true))
                  "https://" "db.example" "443" eq_refl (or_intror eq_refl) eq_refl
                  ltac:(discriminate) eq_refl)).
Defined.

End Client.
